(** * experimaestro-ir: pairwise training loop, dual scorers and evaluation

    A shallow embedding of

    - [xpmir/learning/base.py]          ([Sampler.initialize]),
    - [xpmir/letor/trainers/pairwise.py] (the pairwise losses and
      [PairwiseTrainer]),
    - [xpmir/neural/dual.py]            ([Dense], [DotDense], the vector hooks),
    - [xpmir/evaluation.py]             ([Evaluate.execute]),

    together with the properties the specification states about them.

    Conventions.  Python code that can raise returns an [outcome]; code that
    mutates an object threads the object explicitly.  Tensors of rank 2 are
    lists of rows.  The loss formulas are stated over the real numbers: the
    rounding of 32-bit floats is not modelled, and the values NaN and
    infinity only appear where the code tests for them. *)

From Stdlib Require Import List Bool Arith ZArith QArith Lia String Ascii.
From Stdlib Require Import Reals Lra.
From Stdlib Require Import DecimalString.
From Stdlib Require Import Permutation Sorted.
From Stdlib Require PrimFloat.
Import ListNotations.

Set Implicit Arguments.

(** ** Python outcomes *)

(** The exceptions that the embedded code raises, or that the
    specification names.  [SystemExit] is raised by [sys.exit]; it derives
    from [BaseException] only, so [except Exception] does not catch it. *)
Inductive pyexn : Type :=
| AttributeError (msg : string)
| AssertionError (msg : string)
| NotImplementedError (msg : string)
| IndexError (msg : string)
| RuntimeError (msg : string)
| ConfigurationError (msg : string)
| StopIteration
| SystemExit (code : Z).

(** [isinstance(e, Exception)] *)
Definition is_Exception (e : pyexn) : bool :=
  match e with
  | SystemExit _ => false
  | _ => true
  end.

Inductive outcome (A : Type) : Type :=
| Ret (a : A)
| Raise (e : pyexn).

Arguments Ret {A} a.
Arguments Raise {A} e.

Definition bind {A B : Type} (m : outcome A) (k : A -> outcome B) : outcome B :=
  match m with
  | Ret a => k a
  | Raise e => Raise e
  end.

Declare Scope py_scope.
Delimit Scope py_scope with py.
Notation "x <- m ;; k" := (bind m (fun x => k))
  (at level 61, m at next level, right associativity) : py_scope.
Notation "m ;;; k" := (bind m (fun _ => k))
  (at level 61, right associativity) : py_scope.
Open Scope py_scope.

(** [assert cond, msg] *)
Definition py_assert (cond : bool) (msg : string) : outcome unit :=
  if cond then Ret tt else Raise (AssertionError msg).

Definition raises {A : Type} (m : outcome A) : Prop :=
  exists e, m = Raise e.

Definition returns {A : Type} (m : outcome A) : Prop :=
  exists a, m = Ret a.

(** ** xpmir/learning/base.py *)
Module Base.

(** A [numpy.random.RandomState].  [oid] is the identity of the Python
    object, [seed] the seed it was built from. *)
Record RandomState : Type := mkRandomState { oid : nat; seed : Z }.

(** The attributes of a [Sampler] instance; [random] is unset before
    [initialize] runs. *)
Record Sampler : Type := mkSampler { random : option RandomState }.

Section Initialize.

(** [RandomState.randint(low, high)] on a live generator: the draw and the
    generator after it.  [fresh] is the identity given to a newly allocated
    object. *)
Variable randint : RandomState -> Z -> Z -> Z * RandomState.
Variable fresh : nat.

(** Truth value of an [Optional[RandomState]]: [None] is falsy; a
    [RandomState] defines neither [__bool__] nor [__len__] and is truthy. *)
Definition truthy (o : option RandomState) : bool :=
  match o with
  | None => false
  | Some _ => true
  end.

(** [random.randint(low, high)], where [random] may be [None]. *)
Definition getattr_randint (o : option RandomState) (lo hi : Z) : outcome Z :=
  match o with
  | None =>
      Raise (AttributeError "'NoneType' object has no attribute 'randint'")
  | Some r => Ret (fst (randint r lo hi))
  end.

(** [np.random.RandomState(seed)] *)
Definition new_RandomState (s : Z) : RandomState :=
  {| oid := fresh; seed := s |}.

(** [self.random = random or np.random.RandomState(random.randint(0, 2**31))]:
    the right operand of [or] is evaluated only when the left one is falsy. *)
Definition initialize (self : Sampler) (rnd : option RandomState)
  : outcome Sampler :=
  if truthy rnd then Ret {| random := rnd |}
  else
    s <- getattr_randint rnd 0 (2 ^ 31) ;;
    Ret {| random := Some (new_RandomState s) |}.

End Initialize.

End Base.

(** ** Iterators *)

(** A Python iterator is a state with a [__next__] method; [None] stands for
    [StopIteration].  The state is left as it is when the iterator is
    exhausted, so an exhausted iterator stays exhausted. *)
Module Iter.

Section Iter.

Variables (I A : Type).
Variable next : I -> option (A * I).

(** The first [k] items the iterator emits (fewer when it runs out), and the
    iterator after them. *)
Fixpoint drain (k : nat) (it : I) : list A * I :=
  match k with
  | O => ([], it)
  | S k' =>
      match next it with
      | None => ([], it)
      | Some (a, it') => let (l, it'') := drain k' it' in (a :: l, it'')
      end
  end.

Definition exhausted (it : I) : Prop := next it = None.

(** The iterator can still supply [k] items. *)
Definition can_supply (k : nat) (it : I) : Prop :=
  List.length (fst (drain k it)) = k.

End Iter.

(** The iterator of a list. *)
Definition list_next {A : Type} (l : list A) : option (A * list A) :=
  match l with
  | [] => None
  | a :: l' => Some (a, l')
  end.

End Iter.

(** ** The tensor operations the code uses *)
Module Torch.

(** [mapM]: the first exception wins. *)
Fixpoint mapM {A B : Type} (f : A -> outcome B) (l : list A)
  : outcome (list B) :=
  match l with
  | [] => Ret []
  | a :: l' => b <- f a ;; bs <- mapM f l' ;; Ret (b :: bs)
  end.

Definition map2 {A B C : Type} (f : A -> B -> C) (a : list A) (b : list B)
  : list C :=
  map (fun p => f (fst p) (snd p)) (combine a b).

(** Broadcasting of a binary operation along one dimension: a dimension of
    size 1 is stretched, otherwise the sizes have to agree. *)
Definition broadcast1 {A B C : Type} (f : A -> B -> C)
  (a : list A) (b : list B) : outcome (list C) :=
  match a, b with
  | [x], _ => Ret (map (f x) b)
  | _, [y] => Ret (map (fun x => f x y) a)
  | _, _ =>
      if List.length a =? List.length b then Ret (map2 f a b)
      else Raise (RuntimeError "The size of tensor a must match the size of tensor b")
  end.

(** Broadcasting over two matrices that have the same number of rows (the
    two operands are always slices [[:, :1]] and [[:, 1:]] of one matrix). *)
Definition broadcast2 {A B C : Type} (f : A -> B -> C)
  (a : list (list A)) (b : list (list B)) : outcome (list (list C)) :=
  if List.length a =? List.length b then
    mapM (fun p => broadcast1 f (fst p) (snd p)) (combine a b)
  else Raise (RuntimeError "The size of tensor a must match the size of tensor b").

(** [t[:, :1]] and [t[:, 1:]] *)
Definition slice_to1 {A : Type} (t : list (list A)) : list (list A) :=
  map (firstn 1) t.

Definition slice_from1 {A : Type} (t : list (list A)) : list (list A) :=
  map (skipn 1) t.

(** The first column, through [g], stretched over the other columns of the
    row by [f]. *)
Definition stretch {A B C : Type} (f : B -> A -> C) (g : A -> B) (row : list A)
  : list C :=
  match row with
  | [] => []
  | x :: rest => map (f (g x)) rest
  end.

(** [t[:, j]] *)
Definition select_col {A : Type} (j : nat) (t : list (list A))
  : outcome (list A) :=
  mapM (fun row =>
          match nth_error row j with
          | Some x => Ret x
          | None => Raise (IndexError "index out of range")
          end) t.

(** [t[:, i, j]] *)
Definition select_entry {A : Type} (i j : nat) (t : list (list (list A)))
  : outcome (list A) :=
  mapM (fun mat =>
          match nth_error mat i with
          | Some row =>
              match nth_error row j with
              | Some x => Ret x
              | None => Raise (IndexError "index out of range")
              end
          | None => Raise (IndexError "index out of range")
          end) t.

(** [t.reshape(rows, cols)] of a tensor with the elements [l] in row-major
    order. *)
Fixpoint chunks {A : Type} (rows cols : nat) (l : list A) : list (list A) :=
  match rows with
  | O => []
  | S rows' => firstn cols l :: chunks rows' cols (skipn cols l)
  end.

Definition reshape {A : Type} (l : list A) (rows cols : nat)
  : outcome (list (list A)) :=
  if List.length l =? rows * cols then Ret (chunks rows cols l)
  else Raise (RuntimeError "shape is invalid for input size").

(** A matrix of shape [(B, W)]. *)
Definition has_shape {A : Type} (B W : nat) (t : list (list A)) : Prop :=
  List.length t = B /\ Forall (fun row => List.length row = W) t.

Local Open Scope R_scope.

(** A 0-dimensional result: the mean of an empty tensor is NaN. *)
Inductive fval : Type :=
| Num (r : R)
| NaN.

Definition Rsum (l : list R) : R := fold_right Rplus 0 l.

(** [t.mean()] of the elements [l] *)
Definition mean (l : list R) : fval :=
  match l with
  | [] => NaN
  | _ => Num (Rsum l / INR (List.length l))
  end.

(** [F.relu] *)
Definition relu (x : R) : R := Rmax 0 x.

(** Softmax and log-softmax of one vector. *)
Definition softmax (v : list R) : list R :=
  map (fun x => exp x / Rsum (map exp v)) v.

Definition log_softmax (v : list R) : list R :=
  map (fun x => x - ln (Rsum (map exp v))) v.

End Torch.

(** ** xpmir/letor/trainers/pairwise.py *)
Module Pairwise.

Import Torch.

Definition matrix : Type := list (list R).

(** What [compute] may be handed: the trainer passes a rank-2 tensor
    ([reshape(batch_size, 2)]); the indexing [[:, 0, 0]] needs rank 3. *)
Inductive tensor : Type :=
| T2 (m : matrix)
| T3 (t : list matrix).

(** [t.log_softmax(dim=2)] *)
Definition log_softmax_dim2 (t : tensor) : outcome (list matrix) :=
  match t with
  | T2 _ =>
      Raise (IndexError "Dimension out of range (expected to be in range of [-2, 1], but got 2)")
  | T3 t => Ret (map (map log_softmax) t)
  end.

(** Unary minus on a rank-3 tensor. *)
Definition neg3 (t : list matrix) : list matrix :=
  map (map (map Ropp)) t.

Module NogueiraCrossEntropyLoss.

Definition compute (rel_scores_by_record : tensor) : outcome fval :=
  lsm <- log_softmax_dim2 rel_scores_by_record ;;
  let log_probs := neg3 lsm in
  a <- select_entry 0 0 log_probs ;;
  b <- select_entry 1 1 log_probs ;;
  Ret (mean (map2 Rplus a b)).

End NogueiraCrossEntropyLoss.

Module SoftmaxLoss.

(** [torch.mean(1.0 - F.softmax(rel_scores_by_record, dim=1)[:, 0])] *)
Definition compute (rel_scores_by_record : matrix) : outcome fval :=
  p0 <- select_col 0 (map softmax rel_scores_by_record) ;;
  Ret (mean (map (fun p => 1 - p)%R p0)).

End SoftmaxLoss.

Module HingeLoss.

Record t : Type := mk { margin : R }.

(** [margin: Param[float] = 1.0] *)
Definition default : t := {| margin := 1 |}.

(** [F.relu(self.margin - s[:, :1] + s[:, 1:]).mean()] *)
Definition compute (self : t) (rel_scores_by_record : matrix) : outcome fval :=
  let lhs := map (map (fun p => margin self - p)%R) (slice_to1 rel_scores_by_record) in
  s <- broadcast2 Rplus lhs (slice_from1 rel_scores_by_record) ;;
  Ret (mean (map relu (List.concat s))).

End HingeLoss.

Module pointwise.

Definition compute (rel_scores_by_record : tensor) : outcome fval :=
  lsm <- log_softmax_dim2 rel_scores_by_record ;;
  let log_probs := neg3 lsm in
  a <- select_entry 0 0 log_probs ;;
  b <- select_entry 1 1 log_probs ;;
  Ret (mean (map2 Rplus a b)).

End pointwise.

(** *** What the specification says the losses compute *)

(** Softmax: the mean over the rows of [1 - softmax(row)[0]]. *)
Definition spec_softmax_loss (m : matrix) : R :=
  (Rsum (map (fun row => 1 - nth 0 (softmax row) 0) m) / INR (List.length m))%R.

(** Hinge: the [(row, negative)] entries; column 0 is the positive. *)
Definition hinge_entries (margin : R) (m : matrix) : list R :=
  flat_map (fun row =>
              match row with
              | [] => []
              | positive :: negatives =>
                  map (fun negative => relu (margin - positive + negative))
                      negatives
              end) m.

Definition spec_hinge_loss (margin : R) (m : matrix) : R :=
  (Rsum (hinge_entries margin m) / INR (List.length (hinge_entries margin m)))%R.

(** *** The element type of the scores the ranker returns *)

(** [torch.isnan], [torch.isinf] and [>] on one element. *)
Class Dtype (score : Type) : Type := {
  isnan : score -> bool;
  isinf : score -> bool;
  gt : score -> score -> bool
}.

(** IEEE 754 binary floats. *)
#[export] Instance float_dtype : Dtype PrimFloat.float := {|
  isnan := PrimFloat.is_nan;
  isinf := PrimFloat.is_infinity;
  gt := fun a b => PrimFloat.ltb b a
|}.

Module PairwiseTrainer.

Section Acc.

Context {score : Type} {dtype : Dtype score}.

(** [(s[:, :1] > s[:, 1:]).sum().float() / count], with
    [count = s.shape[0] * (s.shape[1] - 1)].  The quotient of the two
    integers is kept exact; [None] stands for the NaN or infinity that a
    zero [count] gives.  The width of a matrix with no row is taken to be 0
    ([count] is 0 then, whatever the width). *)
Definition acc (scores_by_record : list (list score)) : outcome (option Q) :=
  let shape0 := Z.of_nat (List.length scores_by_record) in
  let shape1 := Z.of_nat (List.length (hd [] scores_by_record)) in
  let count := (shape0 * (shape1 - 1))%Z in
  cmp <- broadcast2 gt (slice_to1 scores_by_record)
                       (slice_from1 scores_by_record) ;;
  let total := Z.of_nat (count_occ bool_dec (List.concat cmp) true) in
  Ret (if (count =? 0)%Z then None
       else Some (inject_Z total / inject_Z count)%Q).

(** The comparisons of a positive (column 0) with a negative of the same
    row in which the positive is strictly greater. *)
Definition wins (scores_by_record : list (list score)) : nat :=
  list_sum
    (map (fun row =>
            match row with
            | [] => O
            | positive :: negatives =>
                List.length (filter (fun negative => gt positive negative) negatives)
            end) scores_by_record).

End Acc.

Section IterBatches.

Variables (I PairwiseRecord : Type).
Variable next : I -> option (PairwiseRecord * I).
Variable batch_size : nat.

(** [PairwiseRecords]: [add] appends. *)
Definition PairwiseRecords : Type := list PairwiseRecord.

Definition add (batch : PairwiseRecords) (record : PairwiseRecord)
  : PairwiseRecords :=
  batch ++ [record].

(** [for _, record in zip(range(n), it): batch.add(record)].  [zip] asks
    [range] first: when the range is used up, [it] is not asked at all. *)
Fixpoint zip_range (n : nat) (it : I) (batch : PairwiseRecords)
  : PairwiseRecords * I :=
  match n with
  | O => (batch, it)
  | S n' =>
      match next it with
      | None => (batch, it)
      | Some (record, it') => zip_range n' it' (add batch record)
      end
  end.

(** One [next()] on the generator [iter_batches(it)]: a pass of the
    [while True] body up to its [yield].  [None] would be the generator
    returning. *)
Definition iter_batches (it : I) : option (PairwiseRecords * I) :=
  Some (zip_range batch_size it []).

End IterBatches.

Section TrainBatch.

Context {score : Type} {dtype : Dtype score}.
Variables (I PairwiseRecord Loss : Type).
Variable next : I -> option (PairwiseRecord * I).
Variable batch_size : nat.
Variable ranker : PairwiseRecords PairwiseRecord -> outcome (list score).
Variable lossfn_compute : list (list score) -> outcome Loss.

(** The calls the trainer makes to its collaborators. *)
Inductive call : Type :=
| CallRanker (input_data : PairwiseRecords PairwiseRecord)
| CallLoggerError (msg : string)
| CallLossCompute (pairwise_scores : list (list score)).

(** The trainer: the batch generator [self.train_iter] (which owns the
    record iterator) and the calls made so far. *)
Record trainer : Type := mkTrainer {
  train_iter : I;
  calls : list call
}.

(** State and exceptions: an exception leaves the state as it was when it
    was raised. *)
Definition M (A : Type) : Type := trainer -> outcome A * trainer.

Definition retM {A : Type} (a : A) : M A := fun st => (Ret a, st).

Definition bindM {A B : Type} (m : M A) (k : A -> M B) : M B :=
  fun st =>
    match m st with
    | (Ret a, st') => k a st'
    | (Raise e, st') => (Raise e, st')
    end.

Definition liftM {A : Type} (o : outcome A) : M A := fun st => (o, st).

Definition record_call (c : call) : M unit :=
  fun st => (Ret tt, {| train_iter := train_iter st; calls := calls st ++ [c] |}).

(** [sys.exit(code)] *)
Definition sys_exit {A : Type} (code : Z) : M A :=
  fun st => (Raise (SystemExit code), st).

(** [next(self.train_iter)] *)
Definition next_train_iter : M (PairwiseRecords PairwiseRecord) :=
  fun st =>
    match iter_batches next batch_size (train_iter st) with
    | None => (Raise StopIteration, st)
    | Some (batch, it') =>
        (Ret batch, {| train_iter := it'; calls := calls st |})
    end.

(** The dictionary that [train_batch] returns beside the loss. *)
Record metrics : Type := mkMetrics {
  metric_loss : Loss;
  metric_acc : option Q
}.

Definition train_batch : M (Loss * metrics) :=
  bindM next_train_iter (fun input_data =>
  bindM (record_call (CallRanker input_data)) (fun _ =>
  bindM (liftM (ranker input_data)) (fun rel_scores =>
  if existsb isnan rel_scores || existsb isinf rel_scores then
    bindM (record_call
             (CallLoggerError "nan or inf relevance score detected. Aborting."))
          (fun _ => sys_exit 1)
  else
    bindM (liftM (reshape rel_scores batch_size 2)) (fun pairwise_scores =>
    bindM (record_call (CallLossCompute pairwise_scores)) (fun _ =>
    bindM (liftM (lossfn_compute pairwise_scores)) (fun loss =>
    bindM (liftM (acc pairwise_scores)) (fun a =>
    retM (loss, {| metric_loss := loss; metric_acc := a |})))))))).

(** Modelled from the spec: the learner's loop, which is not part of the
    sources at hand ("for [max_epoch] epochs, run [steps_per_epoch] Trainer
    steps"): [n] calls to [train_batch] one after the other. *)
Fixpoint train_steps (n : nat) : M (list (Loss * metrics)) :=
  match n with
  | O => retM []
  | S n' =>
      bindM train_batch (fun r =>
      bindM (train_steps n') (fun rs => retM (r :: rs)))
  end.

(** [try: m / except Exception as e: handler(e)] *)
Definition try_except_Exception {A : Type} (m : M A) (handler : pyexn -> M A)
  : M A :=
  fun st =>
    match m st with
    | (Raise e, st') =>
        if is_Exception e then handler e st' else (Raise e, st')
    | r => r
    end.

(** Whether a call is a loss computation. *)
Definition is_loss_call (c : call) : bool :=
  match c with
  | CallLossCompute _ => true
  | _ => false
  end.

(** The trainer after an abort by the numerical guard: the batch is
    consumed, the ranker and the logger have been called, and nothing
    else. *)
Definition aborted (st : trainer) : trainer :=
  let pulled := zip_range next batch_size (train_iter st) [] in
  {| train_iter := snd pulled;
     calls := calls st ++
              [CallRanker (fst pulled);
               CallLoggerError "nan or inf relevance score detected. Aborting."] |}.

End TrainBatch.

Arguments CallRanker {score PairwiseRecord} input_data.
Arguments CallLoggerError {score PairwiseRecord} msg%_string.
Arguments CallLossCompute {score PairwiseRecord} pairwise_scores.
Arguments is_loss_call {score PairwiseRecord} c.

End PairwiseTrainer.

(** *** The cross-entropy loss *)

Module CrossEntropyLoss.

(** [F.cross_entropy(s, target, reduction="mean")] with the target
    [torch.zeros(s.shape[0]).long()]: the mean over the rows of
    [- log_softmax(row)[0]]. *)
Definition compute (rel_scores_by_record : matrix) : outcome fval :=
  nll <- mapM (fun row =>
                 match nth_error (log_softmax row) 0 with
                 | Some lp => Ret (- lp)%R
                 | None => Raise (IndexError "Target 0 is out of bounds.")
                 end) rel_scores_by_record ;;
  Ret (mean nll).

End CrossEntropyLoss.

(** A row in which the positive is ahead of every negative by the margin
    at least. *)
Definition separated (margin : R) (row : list R) : Prop :=
  match row with
  | [] => True
  | positive :: negatives =>
      Forall (fun negative => (margin <= positive - negative)%R) negatives
  end.



End Pairwise.

(** ** xpmir/neural/dual.py *)
Module Dual.

Import Torch.

(** A [TextEncoder], as far as validation looks at it: what [static()]
    returns. *)
Record TextEncoder : Type := mkTextEncoder { static : bool }.

(** The parameters of a [Dense] scorer ([CosineDense] and [DotDense] add
    none). *)
Record Dense_params : Type := mkDense {
  encoder : TextEncoder;
  query_encoder : option TextEncoder
}.

Section Validate.

(** [DualRepresentationScorer.__validate__], which is not part of the
    sources at hand. *)
Variable super_validate : Dense_params -> outcome unit.

Definition Dense__validate__ (self : Dense_params) : outcome unit :=
  super_validate self ;;;
  py_assert (negb (static (encoder self))) "The vocabulary should be learnable".

(** [CosineDense] inherits [__validate__] from [Dense]. *)
Definition CosineDense__validate__ (self : Dense_params) : outcome unit :=
  Dense__validate__ self.

(** In [DotDense], [super().__validate__()] is [Dense.__validate__]. *)
Definition DotDense__validate__ (self : Dense_params) : outcome unit :=
  Dense__validate__ self ;;;
  py_assert (negb (static (encoder self))) "The vocabulary should be learnable".

End Validate.

(** A batch of vectors: one row per query (or document). *)
Definition vectors : Type := list (list R).

(** The product of a [1 x D] row and a [D' x 1] column. *)
Definition dot (q d : list R) : outcome R :=
  if List.length q =? List.length d then Ret (Rsum (map2 Rmult q d))
  else Raise (RuntimeError "mat1 and mat2 shapes cannot be multiplied").

(** [(queries.unsqueeze(1) @ documents.unsqueeze(2)).squeeze(-1).squeeze(-1)]:
    a batched product of [(B, 1, D)] by [(B', D', 1)], whose batch dimensions
    broadcast; the two [squeeze] leave a vector of [B] scores. *)
Definition pair_scores (queries documents : vectors) : outcome (list R) :=
  match queries, documents with
  | [q], _ => mapM (fun d => dot q d) documents
  | _, [d] => mapM (fun q => dot q d) queries
  | _, _ =>
      if List.length queries =? List.length documents then
        mapM (fun p => dot (fst p) (snd p)) (combine queries documents)
      else Raise (RuntimeError "The size of tensor a must match the size of tensor b")
  end.

(** [queries @ documents.T] *)
Definition score_product (queries documents : vectors) : outcome (list (list R)) :=
  mapM (fun q => mapM (fun d => dot q d) documents) queries.

(** The classes of training hooks. *)
Inductive hook_class : Type :=
| TrainingHook
| DualVectorListener
| FlopsRegularizer
| OtherHook (name : string).

(** [issubclass(c, k)] *)
Definition issubclass (c k : hook_class) : bool :=
  match k, c with
  | TrainingHook, _ => true
  | DualVectorListener, (DualVectorListener | FlopsRegularizer) => true
  | FlopsRegularizer, FlopsRegularizer => true
  | OtherHook n, OtherHook n' => String.eqb n n'
  | _, _ => false
  end.

Section ScorePairs.

(** What a hook can change in the training context: its losses and
    metrics. *)
Variable U : Type.

(** A hook: its identity, its class, and what calling it with the query
    and document vectors does to the context; it may raise. *)
Record hook : Type := mkHook {
  hook_id : nat;
  hook_cls : hook_class;
  hook_call : vectors -> vectors -> U -> outcome unit * U
}.

(** One hook invocation, as seen from outside. *)
Record invocation : Type := mkInvocation {
  inv_hook : nat;
  inv_queries : vectors;
  inv_documents : vectors
}.

(** The training context: the hooks in registration order, the content
    that hooks change, and the invocations so far. *)
Record TrainerContext : Type := mkContext {
  registered : list hook;
  content : U;
  invocations : list invocation
}.



(** Modelled from the spec: [TrainerContext.hooks], which is not part of
    the sources at hand ("hooks are registered by capability type and
    invoked in registration order"): the registered hooks of the class, in
    registration order. *)
Definition hooks (info : TrainerContext) (cls : hook_class) : list hook :=
  filter (fun h => issubclass (hook_cls h) cls) (registered info).

(** [hook(info, queries, documents)] *)
Definition call_hook (h : hook) (queries documents : vectors)
  (info : TrainerContext) : outcome unit * TrainerContext :=
  let info1 :=
    {| registered := registered info;
       content := content info;
       invocations :=
         invocations info ++
         [{| inv_hook := hook_id h; inv_queries := queries;
             inv_documents := documents |}] |} in
  let (r, u) := hook_call h queries documents (content info1) in
  (r, {| registered := registered info1; content := u;
         invocations := invocations info1 |}).

(** Modelled from the spec: [xpmir.utils.foreach], which is not part of the
    sources at hand: [fn] applied to each item in turn; "hook failures
    propagate (not swallowed)". *)
Fixpoint foreach {A : Type} (items : list A)
  (fn : A -> TrainerContext -> outcome unit * TrainerContext)
  (info : TrainerContext) : outcome unit * TrainerContext :=
  match items with
  | [] => (Ret tt, info)
  | a :: items' =>
      match fn a info with
      | (Ret _, info') => foreach items' fn info'
      | (Raise e, info') => (Raise e, info')
      end
  end.

(** [Dense.score_pairs]; the context is returned beside the result. *)
Definition score_pairs (queries documents : vectors)
  (info : option TrainerContext)
  : outcome (list R) * option TrainerContext :=
  match pair_scores queries documents with
  | Raise e => (Raise e, info)
  | Ret scores =>
      match info with
      | None => (Ret scores, None)
      | Some ctx =>
          match foreach (hooks ctx DualVectorListener)
                        (fun hook => call_hook hook queries documents) ctx with
          | (Ret _, ctx') => (Ret scores, Some ctx')
          | (Raise e, ctx') => (Raise e, Some ctx')
          end
      end
  end.






End ScorePairs.

(** The dot product [q . d] of two vectors of one length. *)
Definition dot_product (q d : list R) : R :=
  Rsum (map (fun p => fst p * snd p)%R (combine q d)).

(** *** The encoders of [CosineDense] and [DotDense] *)

(** The sum of the squares of a vector. *)
Definition sq_sum (v : list R) : R := Rsum (map (fun x => x * x)%R v).

(** [t.norm(dim=1, keepdim=True)] on one row. *)
Definition norm (v : list R) : R := sqrt (Rsum (map (fun x => x * x)%R v)).

(** [x / n] where [n] is the norm of the row of [x]: a row of norm 0 holds
    zeros only, and 0 / 0 is NaN.  The norm is the real one: the rounding of
    the float norm, which turns the norm of a tiny vector into 0, is not
    modelled. *)
Definition fdiv (x n : R) : fval :=
  if Req_dec_T n 0 then NaN else Num (x / n).

(** [t / t.norm(dim=1, keepdim=True)] *)
Definition normalize (t : vectors) : list (list fval) :=
  map (fun row => map (fun x => fdiv x (norm row)) row) t.

Section Encoders.

(** The encoders of the scorer as functions from texts to vectors, one row
    per text. *)
Variable encoder : list string -> vectors.
Variable query_encoder : option (list string -> vectors).

(** [self.query_encoder or self.encoder] *)
Definition _query_encoder : list string -> vectors :=
  match query_encoder with
  | Some q => q
  | None => encoder
  end.

Definition CosineDense_encode_queries (texts : list string) : list (list fval) :=
  normalize (_query_encoder texts).

Definition CosineDense_encode_documents (texts : list string) : list (list fval) :=
  normalize (encoder texts).

Definition DotDense_encode_queries (texts : list string) : vectors :=
  _query_encoder texts.

Definition DotDense_encode_documents (texts : list string) : vectors :=
  encoder texts.

End Encoders.

(** *** [DotDense.distribute_models] *)

Section Distribute.

(** The [model] attribute of the encoder objects, by object identity. *)
Variable Model : Type.

Definition models : Type := nat -> Model.

Definition set_model (h : models) (o : nat) (m : Model) : models :=
  fun o' => if o' =? o then m else h o'.

(** The encoder objects that a [DotDense] refers to. *)
Record DotDense_refs : Type := mkDotDense {
  encoder_ref : nat;
  query_encoder_ref : option nat
}.

(** [self.encoder.model = update(self.encoder.model)] and then
    [self.query_encoder.model = update(self.query_encoder.model)], where
    [self.query_encoder] may be [None]. *)
Definition distribute_models (self : DotDense_refs) (update : Model -> Model)
  (h : models) : outcome unit * models :=
  let h1 := set_model h (encoder_ref self) (update (h (encoder_ref self))) in
  match query_encoder_ref self with
  | None =>
      (Raise (AttributeError "'NoneType' object has no attribute 'model'"), h1)
  | Some q => (Ret tt, set_model h1 q (update (h1 q)))
  end.

End Distribute.

(** *** [FlopsRegularizer.compute] *)

Module FlopsRegularizerCompute.

(** [x.abs().mean(0)] for [x] of shape [(B, D)]: the mean of each column. *)
Definition abs_mean0 (D : nat) (x : vectors) : list fval :=
  map (fun j => mean (map (fun row => Rabs (nth j row 0%R)) x)) (seq 0 D).

(** [(y * y).sum()]: a NaN makes the sum NaN. *)
Definition sum_squares (y : list fval) : fval :=
  fold_right (fun v acc =>
                match v, acc with
                | Num a, Num s => Num (a * a + s)%R
                | _, _ => NaN
                end) (Num 0%R) y.

(** [compute(x)], where [D] is [x.shape[1]]. *)
Definition compute (D : nat) (x : vectors) : list fval * fval :=
  let y := abs_mean0 D x in
  (y, sum_squares y).

End FlopsRegularizerCompute.

End Dual.

(** ** xpmir/neural/splade.py *)
Module Splade.

Import Torch.

(** Logits of shape [(B, T, V)]: per text, per token, one value per term of
    the vocabulary; an attention mask of shape [(B, T)].  The logits are
    real numbers, that is finite: an infinite or NaN logit, which
    [relu(logit) * 0] turns into NaN, is outside this model. *)
Definition logits_t : Type := list (list (list R)).
Definition mask_t : Type := list (list Z).

Definition shape3 (B T V : nat) (t : logits_t) : Prop :=
  List.length t = B /\ Forall (has_shape T V) t.

(** [torch.log1p]; its argument here is [relu(logit) * mask], which is not
    negative for an attention mask. *)
Definition log1p (y : R) : R := ln (1 + y).

(** Broadcasting along one dimension of an operation that may fail. *)
Definition broadcastM {A B C : Type} (f : A -> B -> outcome C)
  (a : list A) (b : list B) : outcome (list C) :=
  match a, b with
  | [x], _ => mapM (f x) b
  | _, [y] => mapM (fun x => f x y) a
  | _, _ =>
      if List.length a =? List.length b then
        mapM (fun p => f (fst p) (snd p)) (combine a b)
      else Raise (RuntimeError "The size of tensor a must match the size of tensor b")
  end.

(** [torch.log1p(torch.relu(logits) * mask.unsqueeze(-1))]: the mask of a
    token multiplies each of its [V] values. *)
Definition weigh_token (row : list R) (m : Z) : list R :=
  map (fun x => log1p (relu x * IZR m)) row.

Definition weigh (logits : logits_t) (mask : mask_t) : outcome logits_t :=
  broadcastM (broadcastM (fun row m => Ret (weigh_token row m))) logits mask.

(** [torch.max(t, dim=1)] on the tokens of one text: the maximum of each
    term over the tokens; there is no maximum over no token. *)
Definition max_tokens (tokens : list (list R)) : outcome (list R) :=
  match tokens with
  | [] => Raise (IndexError "max(): Expected reduction dim 1 to have non-zero size.")
  | row :: rows => Ret (fold_left (map2 Rmax) rows row)
  end.

(** [torch.sum(t, dim=1)] on the tokens of one text, for [V] terms. *)
Definition sum_tokens (V : nat) (tokens : list (list R)) : list R :=
  fold_left (map2 Rplus) tokens (repeat 0%R V).

(** The weighted tokens of one text: [T] rows of [V] non-negative values. *)
Definition weighted (T V : nat) (tokens : list (list R)) : Prop :=
  List.length tokens = T
  /\ Forall (fun row => List.length row = V /\ Forall (fun w => (0 <= w)%R) row)
            tokens.

Module MaxAggregation.

Definition call (logits : logits_t) (mask : mask_t) : outcome (list (list R)) :=
  w <- weigh logits mask ;;
  mapM max_tokens w.

End MaxAggregation.

Module SumAggregation.

(** [V] is [logits.shape[2]]. *)
Definition call (V : nat) (logits : logits_t) (mask : mask_t)
  : outcome (list (list R)) :=
  w <- weigh logits mask ;;
  Ret (map (sum_tokens V) w).

End SumAggregation.

(** Three lists of one length, related element by element. *)
Inductive Forall3 {A B C : Type} (P : A -> B -> C -> Prop)
  : list A -> list B -> list C -> Prop :=
| Forall3_nil : Forall3 P [] [] []
| Forall3_cons (a : A) (b : B) (c : C) (la : list A) (lb : list B) (lc : list C) :
    P a b c -> Forall3 P la lb lc -> Forall3 P (a :: la) (b :: lb) (c :: lc).

(** Two tensors of logits of one shape that agree on every token that the
    mask does not cancel. *)
Definition same_unmasked (logits logits' : logits_t) (mask : mask_t) : Prop :=
  Forall3 (Forall3 (fun row row' m =>
                      List.length row = List.length row'
                      /\ (m <> 0%Z -> row = row')))
          logits logits' mask.

(** *** The models that [_splade] builds *)

(** A Python number: the arguments are annotated [float] and [int], and
    nothing converts them. *)
Inductive number : Type :=
| Float (x : Q)
| Int (n : Z).

Inductive Aggregation : Type :=
| Max
| Sum.

Record TransformerVocab : Type := mkTransformerVocab {
  model_id : string;
  trainable : bool
}.

Record SpladeTextEncoder : Type := mkSpladeTextEncoder {
  aggregation : Aggregation;
  encoder : TransformerVocab;
  maxlen : option Z
}.

(** [SpladeTextEncoder.static] *)
Definition static (self : SpladeTextEncoder) : bool := false.

Record DotDense : Type := mkDotDense {
  doc_encoder : SpladeTextEncoder;
  query_encoder : option SpladeTextEncoder
}.

(** The keyword arguments of [ScheduledFlopsRegularizer]. *)
Record ScheduledFlopsRegularizer : Type := mkScheduledFlopsRegularizer {
  lambda_q : number;
  lambda_d : number;
  min_lambda_q : number;
  min_lambda_d : number;
  lamdba_warmup_steps : number
}.

(** [_splade], with its six parameters in the order of its signature; the
    last three default to 0. *)
Definition _splade (lambda_q lambda_d : number) (aggregation : Aggregation)
  (min_lambda_q min_lambda_d lamdba_warmup_steps : number)
  : DotDense * ScheduledFlopsRegularizer :=
  let encoder := {| model_id := "distilbert-base-uncased"; trainable := true |} in
  let doc_encoder :=
    {| aggregation := aggregation; encoder := encoder; maxlen := Some 200%Z |} in
  let query_encoder :=
    {| aggregation := aggregation; encoder := encoder; maxlen := Some 30%Z |} in
  ({| doc_encoder := doc_encoder; query_encoder := Some query_encoder |},
   {| lambda_q := lambda_q;
      lambda_d := lambda_d;
      min_lambda_q := min_lambda_q;
      min_lambda_d := min_lambda_d;
      lamdba_warmup_steps := lamdba_warmup_steps |}).

(** [_splade(lambda_q, lambda_d, SumAggregation(), lamdba_warmup_steps)]:
    four positional arguments, bound to the first four parameters. *)
Definition spladeV1 (lambda_q lambda_d lamdba_warmup_steps : number)
  : DotDense * ScheduledFlopsRegularizer :=
  _splade lambda_q lambda_d Sum lamdba_warmup_steps (Int 0) (Int 0).

(** [_splade(lambda_q, lambda_d, MaxAggregation(), min_lambda_q,
    min_lambda_d, lamdba_warmup_steps)] *)
Definition spladeV2 (lambda_q lambda_d min_lambda_q min_lambda_d
                     lamdba_warmup_steps : number)
  : DotDense * ScheduledFlopsRegularizer :=
  _splade lambda_q lambda_d Max min_lambda_q min_lambda_d lamdba_warmup_steps.

(** The scorer as [Dense.__validate__] sees it. *)
Definition as_TextEncoder (e : SpladeTextEncoder) : Dual.TextEncoder :=
  {| Dual.static := static e |}.

Definition as_Dense_params (scorer : DotDense) : Dual.Dense_params :=
  {| Dual.encoder := as_TextEncoder (doc_encoder scorer);
     Dual.query_encoder := option_map as_TextEncoder (query_encoder scorer) |}.

End Splade.

(** ** xpmir/evaluation.py *)
Module Evaluation.

Local Open Scope string_scope.

Definition newline : string := String "010"%char EmptyString.

(** [str(n)] for a natural number. *)
Definition str_int (n : nat) : string :=
  NilEmpty.string_of_uint (Nat.to_uint n).

Section Execute.

Variables (Query Score : Type).

Record ScoredDocument : Type := mkScoredDocument {
  docid : string;
  score : Score
}.

(** [self.retriever.retrieve(query)], in retrieval order. *)
Variable retrieve : Query -> list ScoredDocument.

(** What an f-string makes of a score. *)
Variable format_score : Score -> string.

(** [fp.write(s)] on a text file with the content [fp]. *)
Definition write (fp : string) (s : string) : string := fp ++ s.

(** [f"{qid} Q0 {sd.docid} {rank+1} {sd.score} run\n"] *)
Definition run_line (qid : string) (rank : nat) (sd : ScoredDocument) : string :=
  qid ++ " Q0 " ++ docid sd ++ " " ++ str_int (rank + 1) ++ " "
      ++ format_score (score sd) ++ " run" ++ newline.

(** [for rank, sd in enumerate(...): fp.write(...)], entered with the
    counter of [enumerate] at [rank]. *)
Fixpoint write_ranked (fp : string) (qid : string) (rank : nat)
  (sds : list ScoredDocument) : string :=
  match sds with
  | [] => fp
  | sd :: sds' => write_ranked (write fp (run_line qid rank sd)) qid (S rank) sds'
  end.

(** [for qid, query in self.dataset.topics.iter(): ...] *)
Fixpoint write_topics (fp : string) (topics : list (string * Query)) : string :=
  match topics with
  | [] => fp
  | (qid, query) :: topics' =>
      write_topics (write_ranked fp qid 0 (retrieve query)) topics'
  end.

(** The run file that [Evaluate.execute] writes: [open("w")] starts from an
    empty file. *)
Definition execute_run_file (topics : list (string * Query)) : string :=
  write_topics "" topics.

(** *** The run file format of the specification *)

(** One line: the fields separated by single spaces. *)
Definition format_line (fields : list string) : string :=
  String.concat " " fields ++ newline.

(** The fields of the line of the document retrieved at 1-based [rank]. *)
Definition run_fields (qid : string) (rank : nat) (sd : ScoredDocument)
  : list string :=
  [qid; "Q0"; docid sd; str_int rank; format_score (score sd); "run"].

(** The lines of one query: one per retrieved document, in retrieval order,
    ranked from 1. *)
Definition query_lines (qid : string) (sds : list ScoredDocument) : list string :=
  map (fun p => format_line (run_fields qid (fst p) (snd p)))
      (combine (seq 1 (List.length sds)) sds).

Definition run_file_lines (topics : list (string * Query)) : list string :=
  flat_map (fun t => query_lines (fst t) (retrieve (snd t))) topics.

End Execute.

(** *** The files of measures *)

(** [n] spaces. *)
Fixpoint spaces (n : nat) : string :=
  match n with
  | O => ""
  | S n' => String " "%char (spaces n')
  end.

(** What the format [{:Ns}] makes of a string: padded with spaces on the
    right up to [width] characters, and never cut. *)
Definition ljust (width : nat) (s : string) : string :=
  s ++ spaces (width - String.length s).

(** A dictionary with string keys, as its items in insertion order; the keys
    of a dictionary are distinct. *)
Definition dict (V : Type) : Type := list (string * V).

Definition distinct_keys {V : Type} (d : dict V) : Prop := NoDup (map fst d).

(** [sorted(d.items())]: the keys being distinct, the order of the items is
    the order of their keys. *)
Fixpoint insert_item {V : Type} (kv : string * V) (l : list (string * V))
  : list (string * V) :=
  match l with
  | [] => [kv]
  | kv' :: l' =>
      if String.leb (fst kv) (fst kv') then kv :: l
      else kv' :: insert_item kv l'
  end.

Definition sorted {V : Type} (items : list (string * V)) : list (string * V) :=
  fold_right insert_item [] items.

(** The key of [a] is at most the key of [b], in the order of strings. *)
Definition key_le {V : Type} (a b : string * V) : Prop :=
  String.leb (fst a) (fst b) = true.

Section Measures.

Variable Value : Type.

(** What the format [{:.4f}] makes of a value. *)
Variable format_4f : Value -> string.

(** ["{:25s}{:8s}{:.4f}\n".format(measure, scope, value)] *)
Definition measure_line (measure scope : string) (value : Value) : string :=
  ljust 25 measure ++ ljust 8 scope ++ format_4f value ++ newline.

Definition print_line (fp : string) (measure scope : string) (value : Value)
  : string :=
  write fp (measure_line measure scope value).

(** [for measure, value in sorted(means.items()):
       print_line(fp, measure, "all", value)] *)
Definition write_means (fp : string) (means : dict Value) : string :=
  fold_left (fun fp kv => print_line fp (fst kv) "all" (snd kv)) (sorted means) fp.

(** [TrecEval.execute]: the measures in the order of the dictionary, the
    queries of each measure sorted. *)
Definition TrecEval_write_detailed (fp : string) (detailed : dict (dict Value))
  : string :=
  fold_left
    (fun fp mv =>
       fold_left (fun fp qv => print_line fp (fst mv) (fst qv) (snd qv))
                 (sorted (snd mv)) fp)
    detailed fp.

(** [Evaluate.execute]: the measures sorted, the queries of each measure in
    the order of its dictionary. *)
Definition Evaluate_write_detailed (fp : string)
  (metrics_by_query : dict (dict Value)) : string :=
  fold_left
    (fun fp mv =>
       fold_left (fun fp qv => print_line fp (fst mv) (fst qv) (snd qv))
                 (snd mv) fp)
    (sorted metrics_by_query) fp.

(** The lines of a detailed file, for the measures and queries in the order
    given. *)
Definition detailed_lines (detailed : dict (dict Value)) : list string :=
  flat_map (fun mv => map (fun qv => measure_line (fst mv) (fst qv) (snd qv))
                          (snd mv))
           detailed.

End Measures.

End Evaluation.

(** ** examples/msmarco.py *)
Module Msmarco.

Section Information.

Variables (Dataset Index : Type).

(** [ds.id] *)
Variable ds_id : Dataset -> string.

(** [IndexCollection(documents=ds, ..., threads=CPU_COUNT).submit()]: the
    index that submitting the job gives. *)
Variable submit_index : Dataset -> nat -> Index.

(** [d.get(key)] and [d[key] = value] on a dictionary held as its items. *)
Fixpoint dict_get (d : list (string * Index)) (key : string) : option Index :=
  match d with
  | [] => None
  | (k, v) :: d' => if String.eqb k key then Some v else dict_get d' key
  end.

Fixpoint dict_set (d : list (string * Index)) (key : string) (value : Index)
  : list (string * Index) :=
  match d with
  | [] => [(key, value)]
  | (k, v) :: d' =>
      if String.eqb k key then (k, value) :: d'
      else (k, v) :: dict_set d' key value
  end.

(** An [Information] object: its dictionary [_indexes], and the datasets
    for which an indexing job has been submitted. *)
Record Information : Type := mkInformation {
  _indexes : list (string * Index);
  submitted : list Dataset
}.

(** [Information.__init__] *)
Definition init : Information := {| _indexes := []; submitted := [] |}.

(** [Information.index(ds)], on a machine with [cpu_count] processors. *)
Definition index (cpu_count : nat) (self : Information) (ds : Dataset)
  : Index * Information :=
  match dict_get (_indexes self) (ds_id ds) with
  | Some index => (index, self)
  | None =>
      let index := submit_index ds cpu_count in
      (index,
       {| _indexes := dict_set (_indexes self) (ds_id ds) index;
          submitted := submitted self ++ [ds] |})
  end.

(** The ids of the submitted datasets are the keys of the dictionary, and
    no id occurs twice. *)
Definition consistent (self : Information) : Prop :=
  map ds_id (submitted self) = map fst (_indexes self)
  /\ NoDup (map fst (_indexes self)).

(** The calls [index(ds)] for the datasets of a list, in turn. *)
Fixpoint index_all (cpu_count : nat) (self : Information) (dss : list Dataset)
  : list Index * Information :=
  match dss with
  | [] => ([], self)
  | ds :: dss' =>
      let (i, self1) := index cpu_count self ds in
      let (rest, self2) := index_all cpu_count self1 dss' in
      (i :: rest, self2)
  end.

End Information.

End Msmarco.

(** ** xpmir/text/huggingface/tokenizers.py *)
Module Tokenizers.

Unset Elimination Schemes.

(** A tensor of token ids: of dimension 0, or the sequence of its slices
    along the first dimension. *)
Inductive tensor : Type :=
| Scalar (id : Z)
| Stack (slices : list tensor).

(** What [id2tok] is called with: a number or a tensor. *)
Inductive idx : Type :=
| PyInt (id : Z)
| Tensor (t : tensor).

(** What [id2tok] returns: a token ([None] for an id that the vocabulary
    does not have) or a list. *)
Inductive pyvalue : Type :=
| Tok (token : option string)
| PyList (items : list pyvalue).

Set Elimination Schemes.

Section Id2tok.

(** [self.tokenizer.id_to_token] *)
Variable id_to_token : Z -> option string.

(** [HFTokenizer.id2tok] on a tensor: [idx.item()] for a tensor of
    dimension 0, one call per slice otherwise. *)
Fixpoint id2tok_tensor (t : tensor) : pyvalue :=
  match t with
  | Scalar id => Tok (id_to_token id)
  | Stack slices => PyList (map id2tok_tensor slices)
  end.

Definition id2tok (i : idx) : pyvalue :=
  match i with
  | PyInt id => Tok (id_to_token id)
  | Tensor t => id2tok_tensor t
  end.

End Id2tok.

(** The ids of a tensor, and the tokens of a value, from left to right. *)
Fixpoint ids (t : tensor) : list Z :=
  match t with
  | Scalar id => [id]
  | Stack slices => flat_map ids slices
  end.

Fixpoint tokens (v : pyvalue) : list (option string) :=
  match v with
  | Tok token => [token]
  | PyList items => flat_map tokens items
  end.

(** The nesting of a tensor, and of a value: the lengths at each level. *)
#[warnings="-register-all"]
Inductive nesting : Type :=
| Leaf
| Node (children : list nesting).

Fixpoint tensor_nesting (t : tensor) : nesting :=
  match t with
  | Scalar _ => Leaf
  | Stack slices => Node (map tensor_nesting slices)
  end.

Fixpoint value_nesting (v : pyvalue) : nesting :=
  match v with
  | Tok _ => Leaf
  | PyList items => Node (map value_nesting items)
  end.

End Tokenizers.

(** * Properties *)

Unset Implicit Arguments.

(** ** Outcomes *)

Lemma bind_raise_l {A B : Type} (e : pyexn) (k : A -> outcome B) :
  bind (Raise e) k = Raise e.
Proof. reflexivity. Qed.

Lemma bind_ret_l {A B : Type} (a : A) (k : A -> outcome B) :
  bind (Ret a) k = k a.
Proof. reflexivity. Qed.

Lemma raises_not_returns {A : Type} (m : outcome A) :
  raises m <-> ~ returns m.
Proof.
  split.
  - intros [e He] [a Ha]. congruence.
  - intros H. destruct m as [a | e].
    + exfalso. apply H. now exists a.
    + now exists e.
Qed.

(** ** [Sampler.initialize] *)

Section SamplerFacts.

Variable randint : Base.RandomState -> Z -> Z -> Z * Base.RandomState.
Variable fresh : nat.

Lemma initialize_None (self : Base.Sampler) :
  Base.initialize randint fresh self None
  = Raise (AttributeError "'NoneType' object has no attribute 'randint'").
Proof. reflexivity. Qed.

Lemma initialize_Some (self : Base.Sampler) (r : Base.RandomState) :
  Base.initialize randint fresh self (Some r)
  = Ret {| Base.random := Some r |}.
Proof. reflexivity. Qed.

(** C9: [Sampler.initialize] raises if and only if its [random] argument is
    [None] (the fallback asks [None] for [randint], an [AttributeError], so
    it never builds a fresh [RandomState]); with a [RandomState] it returns
    and [self.random] is that very object. *)
Theorem Sampler_initialize_raises_iff_None :
  forall (self : Base.Sampler) (rnd : option Base.RandomState),
    (raises (Base.initialize randint fresh self rnd) <-> rnd = None)
    /\ (rnd = None ->
        Base.initialize randint fresh self rnd
        = Raise (AttributeError "'NoneType' object has no attribute 'randint'"))
    /\ (forall r, rnd = Some r ->
        Base.initialize randint fresh self rnd = Ret {| Base.random := Some r |})
    /\ (forall self', Base.initialize randint fresh self rnd = Ret self' ->
        rnd <> None /\ Base.random self' = rnd).
Proof.
  intros self rnd. destruct rnd as [r | ].
  - rewrite initialize_Some.
    split; [ | split; [ | split ]].
    + split; [intros [e He] | intros H]; discriminate.
    + intros H. discriminate H.
    + intros r' Hr. now rewrite Hr.
    + intros self' H. injection H as <-. split; [discriminate | reflexivity].
  - rewrite initialize_None.
    split; [ | split; [ | split ]].
    + split; [reflexivity | intros _; eexists; reflexivity].
    + reflexivity.
    + intros r Hr. discriminate Hr.
    + intros self' H. discriminate H.
Qed.

End SamplerFacts.

(** A generator seeded with 7 is stored as it is; [None] raises. *)
Example Sampler_initialize_examples :
  let randint := fun (r : Base.RandomState) (lo hi : Z) => (lo, r) in
  let r := {| Base.oid := 3; Base.seed := 7 |} in
  Base.initialize randint 4 {| Base.random := None |} (Some r)
  = Ret {| Base.random := Some r |}
  /\ raises (Base.initialize randint 4 {| Base.random := None |} None).
Proof.
  split; [reflexivity | ].
  eexists. reflexivity.
Qed.

(** ** [PairwiseTrainer.iter_batches] *)

Section IterBatchesFacts.

Import Pairwise.PairwiseTrainer.

Variables (I A : Type).
Variable next : I -> option (A * I).
Variable batch_size : nat.

Local Abbreviation drain := (Iter.drain next).
Local Abbreviation gen_next := (iter_batches next batch_size).

Lemma drain_length_le (k : nat) :
  forall it, (List.length (fst (drain k it)) <= k)%nat.
Proof.
  induction k as [ | k IH]; intros it; simpl.
  - lia.
  - destruct (next it) as [[a it'] | ]; simpl; [ | lia].
    specialize (IH it'). destruct (drain k it') as [l it'']. simpl in *. lia.
Qed.

Lemma drain_exhausted (k : nat) (it : I) :
  Iter.exhausted next it -> drain k it = ([], it).
Proof.
  unfold Iter.exhausted. intros H. destruct k; simpl; [reflexivity | ].
  now rewrite H.
Qed.

(** Draining [a] items and then [b] more is draining [a + b]. *)
Lemma drain_add (a b : nat) :
  forall it,
    drain (a + b) it
    = (fst (drain a it) ++ fst (drain b (snd (drain a it))),
       snd (drain b (snd (drain a it)))).
Proof.
  induction a as [ | a IH]; intros it; simpl.
  - now destruct (drain b it).
  - destruct (next it) as [[x it'] | ] eqn:E.
    + rewrite IH. destruct (drain a it') as [l it'']. reflexivity.
    + simpl. now rewrite (drain_exhausted b it E).
Qed.

(** The loop over [zip(range(n), it)] appends the next [n] records. *)
Lemma zip_range_drain (n : nat) :
  forall it batch,
    zip_range next n it batch
    = (batch ++ fst (drain n it), snd (drain n it)).
Proof.
  induction n as [ | n IH]; intros it batch; simpl.
  - now rewrite app_nil_r.
  - destruct (next it) as [[x it'] | ].
    + rewrite IH. unfold add. destruct (drain n it') as [l it''].
      simpl. now rewrite <- app_assoc.
    + simpl. now rewrite app_nil_r.
Qed.

Lemma iter_batches_drain (it : I) :
  gen_next it = Some (fst (drain batch_size it), snd (drain batch_size it)).
Proof.
  unfold iter_batches. now rewrite zip_range_drain.
Qed.

(** The first [n] batches the generator yields. *)
Lemma batches_length (n : nat) :
  forall it, List.length (fst (Iter.drain gen_next n it)) = n.
Proof.
  induction n as [ | n IH]; intros it; [reflexivity | ].
  cbn [Iter.drain]. rewrite iter_batches_drain.
  specialize (IH (snd (drain batch_size it))).
  destruct (Iter.drain gen_next n (snd (drain batch_size it))) as [bs it''].
  simpl in *. now rewrite IH.
Qed.

Lemma batches_concat (n : nat) :
  forall it,
    List.concat (fst (Iter.drain gen_next n it)) = fst (drain (n * batch_size) it)
    /\ snd (Iter.drain gen_next n it) = snd (drain (n * batch_size) it).
Proof.
  induction n as [ | n IH]; intros it.
  - simpl. split; reflexivity.
  - cbn [Iter.drain]. rewrite iter_batches_drain.
    change (S n * batch_size)%nat with (batch_size + n * batch_size)%nat.
    rewrite drain_add.
    destruct (IH (snd (drain batch_size it))) as [IH1 IH2].
    destruct (Iter.drain gen_next n (snd (drain batch_size it))) as [bs it''].
    simpl in *. now rewrite IH1, IH2.
Qed.

Lemma batches_bounded (n : nat) :
  forall it,
    Forall (fun b => (List.length b <= batch_size)%nat)
           (fst (Iter.drain gen_next n it)).
Proof.
  induction n as [ | n IH]; intros it.
  - constructor.
  - cbn [Iter.drain]. rewrite iter_batches_drain.
    specialize (IH (snd (drain batch_size it))).
    destruct (Iter.drain gen_next n (snd (drain batch_size it))) as [bs it''].
    simpl in *. constructor; [apply drain_length_le | exact IH].
Qed.

Lemma batches_exhausted (n : nat) (it : I) :
  Iter.exhausted next it ->
  Iter.drain gen_next n it = (repeat [] n, it).
Proof.
  intros H. induction n as [ | n IH].
  - reflexivity.
  - cbn [Iter.drain]. rewrite iter_batches_drain.
    rewrite (drain_exhausted batch_size it H). simpl. now rewrite IH.
Qed.

(** A prefix of what can be supplied can be supplied. *)
Lemma can_supply_add (a b : nat) (it : I) :
  Iter.can_supply next (a + b) it ->
  Iter.can_supply next a it
  /\ Iter.can_supply next b (snd (drain a it)).
Proof.
  unfold Iter.can_supply. rewrite drain_add. simpl. rewrite length_app.
  pose proof (drain_length_le a it).
  pose proof (drain_length_le b (snd (drain a it))). lia.
Qed.

Lemma batches_full (n : nat) :
  forall it,
    Iter.can_supply next (n * batch_size) it ->
    Forall (fun b => List.length b = batch_size)
           (fst (Iter.drain gen_next n it)).
Proof.
  induction n as [ | n IH]; intros it H.
  - constructor.
  - change (S n * batch_size)%nat with (batch_size + n * batch_size)%nat in H.
    apply can_supply_add in H. destruct H as [H1 H2].
    cbn [Iter.drain]. rewrite iter_batches_drain.
    specialize (IH _ H2).
    destruct (Iter.drain gen_next n (snd (drain batch_size it))) as [bs it''].
    simpl in *. constructor; [exact H1 | exact IH].
Qed.

(** C10: every batch that [iter_batches] yields holds at most [batch_size]
    records; the batches are consecutive runs of the record iterator, in
    its order, with nothing skipped or repeated (the first [n] batches
    concatenated are the first [n * batch_size] records, and the iterator is
    left just after them); a batch is full while the iterator can supply
    [batch_size] records; and the generator never returns: from an
    exhausted iterator it yields empty batches for ever. *)
Theorem iter_batches_consecutive_batches :
  forall (it : I),
    (exists batch it',
        gen_next it = Some (batch, it')
        /\ batch = fst (drain batch_size it)
        /\ it' = snd (drain batch_size it)
        /\ (List.length batch <= batch_size)%nat
        /\ (Iter.can_supply next batch_size it ->
            List.length batch = batch_size)
        /\ (Iter.exhausted next it -> batch = [] /\ it' = it))
    /\ (forall n,
          let batches := fst (Iter.drain gen_next n it) in
          List.length batches = n
          /\ Forall (fun b => (List.length b <= batch_size)%nat) batches
          /\ List.concat batches = fst (drain (n * batch_size) it)
          /\ snd (Iter.drain gen_next n it) = snd (drain (n * batch_size) it)
          /\ (Iter.can_supply next (n * batch_size) it ->
              Forall (fun b => List.length b = batch_size) batches)
          /\ (Iter.exhausted next it -> batches = repeat [] n)).
Proof.
  intros it. split.
  - exists (fst (drain batch_size it)), (snd (drain batch_size it)).
    split; [apply iter_batches_drain | ].
    split; [reflexivity | ]. split; [reflexivity | ].
    split; [apply drain_length_le | ].
    split; [intros H; exact H | ].
    intros H. rewrite (drain_exhausted batch_size it H). split; reflexivity.
  - intros n batches. subst batches.
    split; [apply batches_length | ].
    split; [apply batches_bounded | ].
    split; [apply batches_concat | ].
    split; [apply batches_concat | ].
    split; [apply batches_full | ].
    intros H. now rewrite (batches_exhausted n it H).
Qed.

End IterBatchesFacts.

(** Five records in batches of two: two full batches, the rest, then empty
    batches. *)
Example iter_batches_five_by_two :
  fst (Iter.drain (Pairwise.PairwiseTrainer.iter_batches (@Iter.list_next nat) 2) 5
         [10; 11; 12; 13; 14]%nat)
  = [[10; 11]; [12; 13]; [14]; []; []]%nat.
Proof. reflexivity. Qed.

(** ** The Nogueira and pointwise losses *)

(** On the rank-2 tensor that the trainer passes, [log_softmax(dim=2)]
    raises in both. *)
Lemma Nogueira_compute_rank2 (m : Pairwise.matrix) :
  raises (Pairwise.NogueiraCrossEntropyLoss.compute (Pairwise.T2 m)).
Proof. eexists. reflexivity. Qed.

(** C3: [pointwise.compute] and [NogueiraCrossEntropyLoss.compute] agree on
    every input, in the value returned and in the exception raised. *)
Theorem pointwise_compute_eq_Nogueira_compute :
  forall t : Pairwise.tensor,
    Pairwise.pointwise.compute t = Pairwise.NogueiraCrossEntropyLoss.compute t.
Proof.
  intros t. unfold Pairwise.pointwise.compute,
    Pairwise.NogueiraCrossEntropyLoss.compute.
  destruct (Pairwise.log_softmax_dim2 t) as [lsm | e]; reflexivity.
Qed.

(** ** Validation of the dual scorers *)

Section ValidateFacts.

Import Dual.

Variable super_validate : Dense_params -> outcome unit.

Lemma Dense_validate_frozen (self : Dense_params) :
  super_validate self = Ret tt ->
  static (encoder self) = true ->
  Dense__validate__ super_validate self
  = Raise (AssertionError "The vocabulary should be learnable").
Proof.
  intros Hs Hf. unfold Dense__validate__. now rewrite Hs, Hf.
Qed.

Lemma Dense_validate_learnable (self : Dense_params) :
  super_validate self = Ret tt ->
  static (encoder self) = false ->
  Dense__validate__ super_validate self = Ret tt.
Proof.
  intros Hs Hf. unfold Dense__validate__. now rewrite Hs, Hf.
Qed.

(** C2 (amended): when the inherited validation passes, validating a
    [Dense], [CosineDense] or [DotDense] scorer whose encoder is static
    raises an [AssertionError] ("The vocabulary should be learnable"),
    and nothing that is sequenced after validation runs; with a learnable
    encoder validation returns. *)
Theorem dual_validate_frozen_AssertionError :
  forall self : Dense_params,
    super_validate self = Ret tt ->
    (static (encoder self) = true ->
     let err := AssertionError "The vocabulary should be learnable" in
     Dense__validate__ super_validate self = Raise err
     /\ CosineDense__validate__ super_validate self = Raise err
     /\ DotDense__validate__ super_validate self = Raise err
     /\ (forall (B : Type) (training : unit -> outcome B),
           bind (Dense__validate__ super_validate self) training = Raise err
           /\ bind (DotDense__validate__ super_validate self) training = Raise err))
    /\ (static (encoder self) = false ->
        Dense__validate__ super_validate self = Ret tt
        /\ CosineDense__validate__ super_validate self = Ret tt
        /\ DotDense__validate__ super_validate self = Ret tt).
Proof.
  intros self Hs. split; intros Hf.
  - intros err. unfold CosineDense__validate__, DotDense__validate__.
    rewrite (Dense_validate_frozen self Hs Hf). fold err.
    repeat split; reflexivity.
  - unfold CosineDense__validate__, DotDense__validate__.
    rewrite (Dense_validate_learnable self Hs Hf). simpl. rewrite Hf.
    repeat split; reflexivity.
Qed.

End ValidateFacts.

(** A frozen encoder and a learnable one, under an inherited validation
    that accepts everything. *)
Lemma dual_validate_frozen_AssertionError_witness :
  let frozen :=
    {| Dual.encoder := {| Dual.static := true |}; Dual.query_encoder := None |} in
  Dual.DotDense__validate__ (fun _ => Ret tt) frozen
  = Raise (AssertionError "The vocabulary should be learnable").
Proof.
  intros frozen.
  exact (proj1 (proj2 (proj2
    (proj1 (dual_validate_frozen_AssertionError
              (fun _ => Ret tt) frozen eq_refl) eq_refl)))).
Defined.

(** C2, as the specification words it, fails: the exception raised for a
    frozen encoder is an [AssertionError], not a [ConfigurationError]. *)
Lemma dual_validate_frozen_not_ConfigurationError :
  let frozen :=
    {| Dual.encoder := {| Dual.static := true |}; Dual.query_encoder := None |} in
  ~ ((exists msg, Dual.Dense__validate__ (fun _ => Ret tt) frozen
                  = Raise (ConfigurationError msg))
     \/ (exists msg, Dual.DotDense__validate__ (fun _ => Ret tt) frozen
                     = Raise (ConfigurationError msg))).
Proof.
  intros frozen [[msg H] | [msg H]]; discriminate H.
Qed.

(** ** The run file of [Evaluate.execute] *)

Section StringFacts.

Local Open Scope string_scope.

Lemma string_app_nil_r (s : string) : s ++ "" = s.
Proof. induction s as [ | c s IH]; simpl; [reflexivity | now rewrite IH]. Qed.

Lemma string_app_assoc (s1 s2 s3 : string) :
  (s1 ++ s2) ++ s3 = s1 ++ (s2 ++ s3).
Proof. induction s1 as [ | c s1 IH]; simpl; [reflexivity | now rewrite IH]. Qed.

Lemma concat_empty_cons (s : string) (l : list string) :
  String.concat "" (s :: l) = s ++ String.concat "" l.
Proof.
  destruct l as [ | s' l]; simpl; [now rewrite string_app_nil_r | reflexivity].
Qed.

Lemma concat_empty_app (l1 l2 : list string) :
  String.concat "" (l1 ++ l2)%list
  = String.concat "" l1 ++ String.concat "" l2.
Proof.
  induction l1 as [ | s l1 IH]; [reflexivity | ].
  rewrite <- app_comm_cons, !concat_empty_cons, IH.
  now rewrite string_app_assoc.
Qed.

End StringFacts.

Section ExecuteFacts.

Import Evaluation.
Local Open Scope string_scope.

Variables (Query Score : Type).
Variable retrieve : Query -> list (ScoredDocument Score).
Variable format_score : Score -> string.

Local Abbreviation run_line := (Evaluation.run_line format_score).
Local Abbreviation write_ranked := (Evaluation.write_ranked format_score).
Local Abbreviation query_lines := (Evaluation.query_lines format_score).

(** The line that the f-string builds is the six fields, joined by single
    spaces, and a newline. *)
Lemma run_line_fields (qid : string) (rank : nat) (sd : ScoredDocument Score) :
  run_line qid rank sd
  = format_line (run_fields format_score qid (rank + 1) sd).
Proof.
  unfold Evaluation.run_line, format_line, run_fields. simpl.
  repeat (rewrite !string_app_assoc; simpl). reflexivity.
Qed.

(** The lines of a query whose first document has the 1-based rank
    [S rank]. *)
Lemma write_ranked_lines (sds : list (ScoredDocument Score)) :
  forall (fp qid : string) (rank : nat),
    write_ranked fp qid rank sds
    = fp ++ String.concat ""
        (map (fun p => format_line (run_fields format_score qid (fst p) (snd p)))
             (combine (seq (S rank) (List.length sds)) sds)).
Proof.
  induction sds as [ | sd sds IH]; intros fp qid rank.
  - simpl. now rewrite string_app_nil_r.
  - cbn [Evaluation.write_ranked List.length seq combine map fst snd].
    rewrite IH, concat_empty_cons. unfold write.
    rewrite run_line_fields, string_app_assoc.
    now rewrite Nat.add_1_r.
Qed.

Lemma write_topics_lines (topics : list (string * Query)) :
  forall fp : string,
    write_topics retrieve format_score fp topics
    = fp ++ String.concat "" (run_file_lines retrieve format_score topics).
Proof.
  induction topics as [ | [qid query] topics IH]; intros fp.
  - simpl. now rewrite string_app_nil_r.
  - cbn [write_topics run_file_lines flat_map fst snd].
    rewrite IH, write_ranked_lines, concat_empty_app, string_app_assoc.
    reflexivity.
Qed.

Lemma query_lines_length (qid : string) (sds : list (ScoredDocument Score)) :
  List.length (query_lines qid sds) = List.length sds.
Proof.
  unfold Evaluation.query_lines.
  rewrite length_map, length_combine, length_seq. apply Nat.min_id.
Qed.

Lemma query_lines_nth (qid : string) (sds : list (ScoredDocument Score))
  (i : nat) (sd : ScoredDocument Score) :
  nth_error sds i = Some sd ->
  nth_error (query_lines qid sds) i
  = Some (format_line (run_fields format_score qid (i + 1) sd)).
Proof.
  intros H. unfold Evaluation.query_lines.
  assert (Hi : (i < List.length sds)%nat).
  { apply nth_error_Some. congruence. }
  rewrite nth_error_map.
  assert (Hc : nth_error (combine (seq 1 (List.length sds)) sds) i
               = Some ((i + 1)%nat, sd)).
  { clear - H Hi. generalize 1%nat as k. revert i H Hi.
    induction sds as [ | x l IH]; intros i H Hi k; simpl in *; [lia | ].
    destruct i as [ | i]; simpl in *.
    - now injection H as ->.
    - rewrite (IH i H); [ | lia]. do 2 f_equal. lia. }
  now rewrite Hc.
Qed.

(** C8: the run file holds, for every query in turn, one line per
    retrieved document, in retrieval order; the line of the document at
    position [i] (from 0) is the fields query id, [Q0], document id, rank,
    score and [run], separated by single spaces, and its rank is [i + 1]:
    1 for the first document and one more on each line. *)
Theorem execute_run_file_format :
  forall topics : list (string * Query),
    execute_run_file retrieve format_score topics
    = String.concat "" (run_file_lines retrieve format_score topics)
    /\ run_file_lines retrieve format_score topics
       = flat_map (fun t => query_lines (fst t) (retrieve (snd t))) topics
    /\ (forall qid query,
          In (qid, query) topics ->
          List.length (query_lines qid (retrieve query))
          = List.length (retrieve query)
          /\ (forall i sd,
                nth_error (retrieve query) i = Some sd ->
                nth_error (query_lines qid (retrieve query)) i
                = Some (qid ++ " Q0 " ++ docid sd ++ " " ++ str_int (i + 1)
                            ++ " " ++ format_score (score sd) ++ " run"
                            ++ newline))).
Proof.
  intros topics. split; [ | split].
  - unfold execute_run_file. now rewrite write_topics_lines.
  - reflexivity.
  - intros qid query _. split; [apply query_lines_length | ].
    intros i sd H. rewrite (query_lines_nth qid _ i sd H).
    now rewrite <- run_line_fields.
Qed.

End ExecuteFacts.

(** One query, three documents: ranks 1, 2 and 3. *)
Example execute_run_file_three_documents :
  let retrieve := fun _ : unit =>
    [ {| Evaluation.docid := "d7"; Evaluation.score := "2.5" |};
      {| Evaluation.docid := "d2"; Evaluation.score := "1.0" |};
      {| Evaluation.docid := "d9"; Evaluation.score := "0.25" |} ]%string in
  Evaluation.execute_run_file retrieve (fun s => s) [("q1"%string, tt)]
  = String.concat Evaluation.newline
      [ "q1 Q0 d7 1 2.5 run"; "q1 Q0 d2 2 1.0 run"; "q1 Q0 d9 3 0.25 run"; "" ]%string.
Proof. reflexivity. Qed.

(** ** Tensor operations *)

Section TorchFacts.

Import Torch.

Lemma mapM_Ret {A B : Type} (f : A -> outcome B) (g : A -> B) (l : list A) :
  (forall a, In a l -> f a = Ret (g a)) ->
  mapM f l = Ret (map g l).
Proof.
  induction l as [ | a l IH]; intros H; simpl; [reflexivity | ].
  rewrite (H a (or_introl eq_refl)). simpl.
  rewrite IH; [reflexivity | ]. intros b Hb. apply H. now right.
Qed.

Lemma mapM_map {A B C : Type} (f : B -> outcome C) (h : A -> B) (l : list A) :
  mapM f (map h l) = mapM (fun a => f (h a)) l.
Proof.
  induction l as [ | a l IH]; simpl; [reflexivity | now rewrite IH].
Qed.

Lemma combine_map_same {A B C : Type} (f : A -> B) (g : A -> C) (l : list A) :
  combine (map f l) (map g l) = map (fun a => (f a, g a)) l.
Proof.
  induction l as [ | a l IH]; simpl; [reflexivity | now rewrite IH].
Qed.

(** Broadcasting the slices [[:, :1]] and [[:, 1:]] of one matrix always
    succeeds: it stretches the first column over the others. *)
Lemma broadcast1_slices {A B C : Type} (f : B -> A -> C) (g : A -> B)
  (row : list A) :
  broadcast1 f (map g (firstn 1 row)) (skipn 1 row) = Ret (stretch f g row).
Proof.
  destruct row as [ | x rest]; reflexivity.
Qed.

Lemma broadcast2_slices {A B C : Type} (f : B -> A -> C) (g : A -> B)
  (t : list (list A)) :
  broadcast2 f (map (map g) (slice_to1 t)) (slice_from1 t)
  = Ret (map (stretch f g) t).
Proof.
  unfold broadcast2, slice_to1, slice_from1.
  rewrite !length_map, Nat.eqb_refl, map_map, combine_map_same, mapM_map.
  apply mapM_Ret. intros row _. simpl. apply broadcast1_slices.
Qed.

Lemma broadcast2_slices_id {A C : Type} (f : A -> A -> C) (t : list (list A)) :
  broadcast2 f (slice_to1 t) (slice_from1 t)
  = Ret (map (stretch f (fun x => x)) t).
Proof.
  rewrite <- broadcast2_slices. f_equal.
  rewrite <- (map_id (slice_to1 t)) at 1.
  apply map_ext. intros row. now rewrite map_id.
Qed.

End TorchFacts.

(** ** [PairwiseTrainer.acc] *)

Section AccFacts.

Import Torch Pairwise Pairwise.PairwiseTrainer.

Context {score : Type} {dtype : Dtype score}.

Lemma count_occ_map_true {A : Type} (p : A -> bool) (l : list A) :
  count_occ bool_dec (map p l) true = List.length (filter p l).
Proof.
  induction l as [ | a l IH]; simpl; [reflexivity | ].
  destruct (p a); simpl.
  - destruct (bool_dec true true) as [_ | N]; [now rewrite IH | congruence].
  - destruct (bool_dec false true) as [E | _]; [discriminate E | exact IH].
Qed.

Lemma count_occ_comparisons (m : list (list score)) :
  count_occ bool_dec (List.concat (map (stretch gt (fun x => x)) m)) true
  = wins m.
Proof.
  unfold wins. induction m as [ | row m IH]; simpl; [reflexivity | ].
  rewrite count_occ_app, IH. f_equal.
  destruct row as [ | x rest]; simpl; [reflexivity | ].
  apply count_occ_map_true.
Qed.

Lemma wins_le (B W : nat) (m : list (list score)) :
  has_shape B W m -> (wins m <= B * (W - 1))%nat.
Proof.
  intros [HB HW]. subst B. unfold wins.
  induction HW as [ | row m Hrow _ IH]; simpl; [lia | ].
  assert (Hr : (match row with
                | [] => O
                | positive :: negatives =>
                    List.length (filter (fun negative => gt positive negative) negatives)
                end <= W - 1)%nat).
  { destruct row as [ | x rest]; [lia | ].
    pose proof (filter_length_le (fun negative => gt x negative) rest).
    simpl in Hrow. lia. }
  lia.
Qed.

Lemma acc_value (B W : nat) (m : list (list score)) :
  has_shape B W m -> (1 <= B)%nat ->
  acc m
  = Ret (if (Z.of_nat B * (Z.of_nat W - 1) =? 0)%Z then None
         else Some (inject_Z (Z.of_nat (wins m))
                    / inject_Z (Z.of_nat B * (Z.of_nat W - 1)))%Q).
Proof.
  intros [HB HW] H1. unfold acc.
  rewrite broadcast2_slices_id. simpl. rewrite count_occ_comparisons.
  destruct m as [ | row m]; [simpl in HB; lia | ].
  apply Forall_inv in HW. simpl hd. now rewrite HW, HB.
Qed.

Lemma Q_fraction_bounds (t c : Z) :
  (0 <= t <= c)%Z -> (0 < c)%Z ->
  (0 <= inject_Z t / inject_Z c /\ inject_Z t / inject_Z c <= 1)%Q.
Proof.
  intros Ht Hc. destruct c as [ | c | c]; try lia.
  unfold Qle, Qdiv, Qmult, Qinv, inject_Z. simpl. lia.
Qed.

(** C7: on a matrix of shape [(batch_size, pair_width)] with at least one
    row and at least two columns, [acc] returns the number of
    (positive, negative) comparisons that the positive wins strictly,
    divided by the number of comparisons, a value in the interval
    [[0, 1]]. *)
Theorem acc_in_unit_interval :
  forall (batch_size pair_width : nat) (scores_by_record : list (list score)),
    has_shape batch_size pair_width scores_by_record ->
    (1 <= batch_size)%nat ->
    (2 <= pair_width)%nat ->
    exists a : Q,
      acc scores_by_record = Ret (Some a)
      /\ a = (inject_Z (Z.of_nat (wins scores_by_record))
              / inject_Z (Z.of_nat (batch_size * (pair_width - 1))))%Q
      /\ (0 <= a)%Q /\ (a <= 1)%Q.
Proof.
  intros B W m Hs HB HW.
  assert (Hc : (Z.of_nat B * (Z.of_nat W - 1))%Z = Z.of_nat (B * (W - 1))) by nia.
  exists (inject_Z (Z.of_nat (wins m)) / inject_Z (Z.of_nat (B * (W - 1))))%Q.
  split; [ | split; [reflexivity | ]].
  - rewrite (acc_value B W m Hs HB), Hc.
    destruct (Z.eqb_spec (Z.of_nat (B * (W - 1))) 0) as [E | _]; [nia | reflexivity].
  - apply Q_fraction_bounds; [ | nia].
    pose proof (wins_le B W m Hs). lia.
Qed.

End AccFacts.

(** Two rows of floats: the positive wins one comparison out of four; a
    NaN never wins. *)
Lemma acc_in_unit_interval_witness :
  let m := [ [PrimFloat.one; PrimFloat.zero; PrimFloat.infinity];
             [PrimFloat.nan; PrimFloat.zero; PrimFloat.one] ] in
  exists a : Q,
    Pairwise.PairwiseTrainer.acc (dtype := Pairwise.float_dtype) m = Ret (Some a)
    /\ a = (inject_Z (Z.of_nat
                        (Pairwise.PairwiseTrainer.wins (dtype := Pairwise.float_dtype) m))
            / inject_Z (Z.of_nat (2 * (3 - 1))))%Q
    /\ (0 <= a)%Q /\ (a <= 1)%Q.
Proof.
  intros m.
  apply (acc_in_unit_interval (dtype := Pairwise.float_dtype) 2 3 m).
  - split; [reflexivity | repeat constructor].
  - lia.
  - lia.
Defined.

Example acc_one_quarter :
  Pairwise.PairwiseTrainer.acc (dtype := Pairwise.float_dtype)
    [ [PrimFloat.one; PrimFloat.zero; PrimFloat.infinity];
      [PrimFloat.nan; PrimFloat.zero; PrimFloat.one] ]
  = Ret (Some (1 / 4)%Q).
Proof. reflexivity. Qed.

(** ** [PairwiseTrainer.train_batch] *)

Section TrainBatchFacts.

Import Torch Pairwise Pairwise.PairwiseTrainer.

Context {score : Type} {dtype : Dtype score}.
Variables (I PairwiseRecord Loss : Type).
Variable next : I -> option (PairwiseRecord * I).
Variable batch_size : nat.
Variable ranker : PairwiseRecords PairwiseRecord -> outcome (list score).
Variable lossfn_compute : list (list score) -> outcome Loss.

Local Abbreviation train_batch :=
  (Pairwise.PairwiseTrainer.train_batch next batch_size ranker lossfn_compute).
Local Abbreviation train_steps :=
  (Pairwise.PairwiseTrainer.train_steps next batch_size ranker lossfn_compute).
Local Abbreviation trainer := (Pairwise.PairwiseTrainer.trainer (score := score) I PairwiseRecord).

(** The guard of [train_batch] fires exactly when some score is NaN or
    infinite. *)
Lemma guard_true_iff (rel_scores : list score) :
  existsb isnan rel_scores || existsb isinf rel_scores = true
  <-> exists x, In x rel_scores /\ (isnan x = true \/ isinf x = true).
Proof.
  rewrite orb_true_iff, !existsb_exists. split.
  - intros [[x [Hx H]] | [x [Hx H]]]; exists x; auto.
  - intros [x [Hx [H | H]]]; [left | right]; exists x; auto.
Qed.

Lemma train_batch_abort (st : trainer) (rel_scores : list score) :
  ranker (fst (zip_range next batch_size (train_iter st) [])) = Ret rel_scores ->
  (exists x, In x rel_scores /\ (isnan x = true \/ isinf x = true)) ->
  train_batch st = (Raise (SystemExit 1), aborted next batch_size st).
Proof.
  intros Hr Hbad. apply guard_true_iff in Hbad.
  unfold Pairwise.PairwiseTrainer.train_batch, bindM at 1, next_train_iter, iter_batches.
  destruct (zip_range next batch_size (train_iter st) []) as [batch it'] eqn:E.
  simpl in Hr. unfold bindM at 1, record_call. cbn [train_iter calls].
  unfold bindM at 1, liftM at 1. rewrite Hr, Hbad.
  unfold bindM, record_call, sys_exit, aborted. cbn [train_iter calls].
  rewrite E. cbn [fst snd]. now rewrite <- app_assoc.
Qed.

(** Without a NaN or an infinity the step goes on to the loss. *)
Lemma train_batch_finite (st : trainer) (rel_scores : list score)
  (pairwise_scores : list (list score)) (loss : Loss) :
  ranker (fst (zip_range next batch_size (train_iter st) [])) = Ret rel_scores ->
  (forall x, In x rel_scores -> isnan x = false /\ isinf x = false) ->
  reshape rel_scores batch_size 2 = Ret pairwise_scores ->
  lossfn_compute pairwise_scores = Ret loss ->
  exists a,
    acc pairwise_scores = Ret a
    /\ train_batch st
       = (Ret (loss, {| metric_loss := loss; metric_acc := a |}),
          {| train_iter := snd (zip_range next batch_size (train_iter st) []);
             calls := calls st ++
                      [CallRanker (fst (zip_range next batch_size (train_iter st) []));
                       CallLossCompute pairwise_scores] |}).
Proof.
  intros Hr Hfin Hsh Hl.
  assert (Hg : existsb isnan rel_scores || existsb isinf rel_scores = false).
  { destruct (existsb isnan rel_scores || existsb isinf rel_scores) eqn:E;
      [ | reflexivity].
    apply guard_true_iff in E. destruct E as [x [Hx H]].
    destruct (Hfin x Hx) as [H1 H2]. rewrite H1, H2 in H.
    destruct H; discriminate. }
  assert (Ha : exists a, acc pairwise_scores = Ret a).
  { unfold acc. rewrite broadcast2_slices_id. simpl. eexists. reflexivity. }
  destruct Ha as [a Ha]. exists a. split; [exact Ha | ].
  unfold Pairwise.PairwiseTrainer.train_batch, bindM at 1, next_train_iter, iter_batches.
  destruct (zip_range next batch_size (train_iter st) []) as [batch it'] eqn:E.
  simpl in Hr. unfold bindM at 1, record_call. cbn [train_iter calls].
  unfold bindM at 1, liftM at 1. rewrite Hr, Hg.
  unfold bindM at 1, liftM at 1. rewrite Hsh.
  unfold bindM at 1, record_call. cbn [train_iter calls].
  unfold bindM at 1, liftM at 1. rewrite Hl.
  unfold bindM at 1, liftM at 1. rewrite Ha.
  unfold retM. cbn [fst snd]. now rewrite <- app_assoc.
Qed.

(** C1: when a score that the ranker returns for the batch pulled by
    [train_batch] is NaN or infinite, [train_batch] logs an error and raises
    [SystemExit(1)]: the loss is not computed for the batch, whatever is
    sequenced after the step does not run (in particular no further call of
    [train_batch]), and a handler for [Exception] does not catch the exit, so
    the step is not retried. *)
Theorem train_batch_aborts_on_nan_or_inf :
  forall (st : trainer) (rel_scores : list score),
    ranker (fst (zip_range next batch_size (train_iter st) [])) = Ret rel_scores ->
    (exists x, In x rel_scores /\ (isnan x = true \/ isinf x = true)) ->
    let st' := aborted next batch_size st in
    train_batch st = (Raise (SystemExit 1), st')
    /\ filter is_loss_call (calls st')
       = filter is_loss_call (calls st)
    /\ (forall (B : Type) (rest : Loss * metrics Loss -> M I PairwiseRecord B),
          bindM train_batch rest st = (Raise (SystemExit 1), st'))
    /\ (forall n : nat, train_steps (S n) st = (Raise (SystemExit 1), st'))
    /\ (forall handler,
          try_except_Exception train_batch handler st
          = (Raise (SystemExit 1), st')).
Proof.
  intros st rel_scores Hr Hbad st'.
  pose proof (train_batch_abort st rel_scores Hr Hbad) as H. fold st' in H.
  split; [exact H | ]. split; [ | split; [ | split]].
  - unfold st', aborted. cbn [calls]. rewrite filter_app. simpl.
    now rewrite app_nil_r.
  - intros B rest. unfold bindM. now rewrite H.
  - intros n. cbn [Pairwise.PairwiseTrainer.train_steps]. unfold bindM at 1.
    now rewrite H.
  - intros handler. unfold try_except_Exception. now rewrite H.
Qed.

End TrainBatchFacts.

(** One record per batch, and a ranker that returns a NaN: the first step
    exits. *)
Lemma train_batch_aborts_on_nan_or_inf_witness :
  let ranker := fun _ : list nat => Ret [PrimFloat.one; PrimFloat.nan] in
  let lossfn := fun _ : list (list PrimFloat.float) => Ret tt in
  let st := {| Pairwise.PairwiseTrainer.train_iter := [5; 6]%nat;
               Pairwise.PairwiseTrainer.calls := [] |} in
  Pairwise.PairwiseTrainer.train_steps (dtype := Pairwise.float_dtype)
    (@Iter.list_next nat) 1 ranker lossfn 3 st
  = (Raise (SystemExit 1),
     {| Pairwise.PairwiseTrainer.train_iter := [6]%nat;
        Pairwise.PairwiseTrainer.calls :=
          [Pairwise.PairwiseTrainer.CallRanker [5]%nat;
           Pairwise.PairwiseTrainer.CallLoggerError
             "nan or inf relevance score detected. Aborting."%string] |}).
Proof.
  intros ranker lossfn st.
  refine (proj1 (proj2 (proj2 (proj2
    (train_batch_aborts_on_nan_or_inf (dtype := Pairwise.float_dtype)
       (list nat) nat unit (@Iter.list_next nat) 1%nat ranker lossfn st
       [PrimFloat.one; PrimFloat.nan] eq_refl _)))) 2%nat).
  exists PrimFloat.nan. split; [right; left; reflexivity | left; reflexivity].
Defined.

(** ** [Dense.score_pairs] *)

Section ScorePairsFacts.

Import Torch Dual.

Lemma dot_same_length (q d : list R) :
  List.length q = List.length d -> dot q d = Ret (dot_product q d).
Proof.
  intros H. unfold dot. rewrite H, Nat.eqb_refl. reflexivity.
Qed.

Lemma rows_same_length (B D : nat) (queries documents : vectors) :
  has_shape B D queries -> has_shape B D documents ->
  forall p, In p (combine queries documents) ->
            List.length (fst p) = List.length (snd p).
Proof.
  intros [_ Hq] [_ Hd] [q d] Hp. simpl.
  rewrite Forall_forall in Hq, Hd.
  rewrite (Hq q (in_combine_l _ _ _ _ Hp)), (Hd d (in_combine_r _ _ _ _ Hp)).
  reflexivity.
Qed.

(** On [B] queries and [B] documents of one dimension, the batched product
    is the list of the dot products [q_i . d_i]. *)
Lemma pair_scores_dot_products (B D : nat) (queries documents : vectors) :
  has_shape B D queries -> has_shape B D documents ->
  pair_scores queries documents = Ret (map2 dot_product queries documents).
Proof.
  intros Hq Hd.
  pose proof (rows_same_length B D queries documents Hq Hd) as Hrows.
  assert (Hgen : mapM (fun p => dot (fst p) (snd p)) (combine queries documents)
                 = Ret (map2 dot_product queries documents)).
  { unfold map2. apply mapM_Ret. intros p Hp.
    apply dot_same_length, Hrows, Hp. }
  assert (Hlen : List.length queries = List.length documents).
  { destruct Hq as [Hq _], Hd as [Hd _]. congruence. }
  unfold pair_scores.
  destruct queries as [ | q [ | q' queries]];
    destruct documents as [ | d [ | d' documents]];
    try discriminate Hlen.
  - exact Hgen.
  - simpl. rewrite dot_same_length; [reflexivity | ].
    apply (Hrows (q, d)). now left.
  - rewrite Hlen, Nat.eqb_refl. exact Hgen.
Qed.

Variable U : Type.

Local Abbreviation hook := (Dual.hook U).
Local Abbreviation TrainerContext := (Dual.TrainerContext U).




(** The scores come first: when the product fails, no hook is called. *)
Lemma score_pairs_product_fails (queries documents : vectors)
  (ctx : TrainerContext) (e : pyexn) :
  pair_scores queries documents = Raise e ->
  score_pairs queries documents (Some ctx) = (Raise e, Some ctx).
Proof.
  intros H. unfold score_pairs. now rewrite H.
Qed.


End ScorePairsFacts.



(** ** The hinge and softmax losses *)

Section LossFacts.

Import Torch Pairwise.
Local Open Scope R_scope.

Lemma mean_nonempty (l : list R) :
  l <> [] -> mean l = Num (Rsum l / INR (List.length l)).
Proof. destruct l; [congruence | reflexivity]. Qed.

Lemma Rsum_constant (c : R) (l : list R) :
  Forall (fun x => x = c) l -> Rsum l = INR (List.length l) * c.
Proof.
  induction 1 as [ | x l Hx _ IH].
  - simpl. ring.
  - cbn [Rsum fold_right List.length]. fold (Rsum l).
    rewrite IH, S_INR, Hx. ring.
Qed.

(** The entries that the hinge loss averages. *)
Lemma relu_stretch (margin : R) (m : matrix) :
  map relu (List.concat (map (stretch Rplus (fun p => margin - p)) m))
  = hinge_entries margin m.
Proof.
  unfold hinge_entries. induction m as [ | row m IH]; [reflexivity | ].
  cbn [map List.concat flat_map]. rewrite map_app, IH. f_equal.
  destruct row as [ | positive negatives]; [reflexivity | ].
  simpl. now rewrite map_map.
Qed.

Lemma HingeLoss_compute_entries (self : HingeLoss.t) (m : matrix) :
  HingeLoss.compute self m
  = Ret (mean (hinge_entries (HingeLoss.margin self) m)).
Proof.
  unfold HingeLoss.compute. rewrite broadcast2_slices. simpl.
  now rewrite relu_stretch.
Qed.

Lemma hinge_entries_length (margin : R) (B W : nat) (m : matrix) :
  has_shape B W m ->
  List.length (hinge_entries margin m) = (B * (W - 1))%nat.
Proof.
  intros [HB HW]. subst B. unfold hinge_entries.
  induction HW as [ | row m Hrow _ IH]; [reflexivity | ].
  cbn [flat_map]. rewrite length_app, IH.
  destruct row as [ | positive negatives]; simpl in *; [lia | ].
  rewrite length_map. lia.
Qed.

(** C6: on a matrix with at least one row and at least one negative column,
    [HingeLoss.compute] returns the mean, over the [(row, negative)]
    entries, of [relu(margin - positive + negative)]; the margin is 1 unless
    it is set; for the single row [(0.3, 0.9)] and the margin 1 the loss is
    1.6. *)
Theorem HingeLoss_compute_mean_relu :
  forall (self : HingeLoss.t) (B W : nat) (m : matrix),
    has_shape B W m ->
    (1 <= B)%nat ->
    (2 <= W)%nat ->
    HingeLoss.compute self m
    = Ret (Num (spec_hinge_loss (HingeLoss.margin self) m))
    /\ List.length (hinge_entries (HingeLoss.margin self) m) = (B * (W - 1))%nat
    /\ HingeLoss.margin HingeLoss.default = 1
    /\ HingeLoss.compute HingeLoss.default [[0.3; 0.9]] = Ret (Num 1.6).
Proof.
  intros self B W m Hs HB HW.
  pose proof (hinge_entries_length (HingeLoss.margin self) B W m Hs) as Hlen.
  split; [ | split; [exact Hlen | split; [reflexivity | ]]].
  - rewrite HingeLoss_compute_entries, mean_nonempty; [reflexivity | ].
    intros E. rewrite E in Hlen. simpl in Hlen. nia.
  - rewrite HingeLoss_compute_entries. simpl. unfold relu.
    rewrite Rmax_right by lra. do 2 f_equal. lra.
Qed.

(** *** Bounds on [e] *)

Lemma exp_INR_mult (n : nat) (x : R) : exp (INR n * x) = exp x ^ n.
Proof.
  induction n as [ | n IH].
  - simpl. rewrite Rmult_0_l. apply exp_0.
  - rewrite S_INR, Rmult_plus_distr_r, Rmult_1_l, exp_plus, IH. simpl. ring.
Qed.

Lemma INR_256 : INR 256 = 256.
Proof. rewrite INR_IZR_INZ. reflexivity. Qed.

(** [(1 + 1/256)^256 <= e] *)
Lemma exp_1_lower : 2.71 < exp 1.
Proof.
  assert (E : exp 1 = exp (1 / 256) ^ 256).
  { rewrite <- exp_INR_mult. f_equal. rewrite INR_256. lra. }
  rewrite E.
  apply Rlt_le_trans with ((1 + 1 / 256) ^ 256); [lra | ].
  apply pow_incr. split; [lra | ]. apply exp_ineq1_le.
Qed.

(** [(1 - 1/256)^256 <= 1/e] *)
Lemma exp_1_upper : exp 1 < 2.73.
Proof.
  assert (H : (1 - 1 / 256) ^ 256 <= exp (Ropp 1)).
  { assert (E : exp (Ropp 1) = exp (- (1 / 256)) ^ 256).
    { rewrite <- exp_INR_mult. f_equal. rewrite INR_256. lra. }
    rewrite E. apply pow_incr. split; [lra | ].
    replace (1 - 1 / 256) with (1 + - (1 / 256)) by lra. apply exp_ineq1_le. }
  assert (H0 : / 2.73 < (1 - 1 / 256) ^ 256) by lra.
  rewrite exp_Ropp in H.
  destruct (Rlt_le_dec (exp 1) 2.73) as [Hlt | Hge]; [exact Hlt | ].
  pose proof (Rinv_le_contravar 2.73 (exp 1) ltac:(lra) Hge). lra.
Qed.

(** [1 - softmax([1, 0])[0]], which is [1 / (1 + e)]. *)
Lemma softmax_1_0_value :
  Rabs (1 - nth 0 (softmax [1; 0]) 0 - 0.269) < 0.001.
Proof.
  simpl. rewrite exp_0.
  pose proof exp_1_lower as Hl. pose proof exp_1_upper as Hu.
  assert (Hd : 0 < exp 1 + (1 + 0)) by lra.
  assert (E : 1 - exp 1 / (exp 1 + (1 + 0)) = 1 / (exp 1 + (1 + 0))).
  { field. lra. }
  rewrite E. set (d := exp 1 + (1 + 0)) in *.
  assert (Hinv : 1 / d * d = 1) by (field; lra).
  assert (Hup : 1 / d < 0.270).
  { apply (Rmult_lt_reg_r d); [exact Hd | ]. rewrite Hinv. unfold d. lra. }
  assert (Hlow : 0.268 < 1 / d).
  { apply (Rmult_lt_reg_r d); [exact Hd | ]. rewrite Hinv. unfold d. lra. }
  apply Rabs_def1; lra.
Qed.

(** *** The softmax loss *)

Lemma SoftmaxLoss_compute_rows (B W : nat) (m : matrix) :
  has_shape B W m -> (1 <= W)%nat ->
  SoftmaxLoss.compute m
  = Ret (mean (map (fun row => 1 - nth 0 (softmax row) 0) m)).
Proof.
  intros [_ HW] H1. unfold SoftmaxLoss.compute, select_col.
  rewrite mapM_map.
  rewrite (mapM_Ret _ (fun row => nth 0 (softmax row) 0)).
  - simpl. now rewrite map_map.
  - intros row Hrow. rewrite Forall_forall in HW. specialize (HW row Hrow).
    destruct row as [ | x rest]; [simpl in HW; lia | reflexivity].
Qed.

(** C5: on a matrix with at least one row and at least two columns,
    [SoftmaxLoss.compute] returns the mean over the rows of
    [1 - softmax(row)[0]]; when every row is [[1, 0]] this is
    [1 - softmax([1, 0])[0]], which is 0.269 to within 0.001. *)
Theorem SoftmaxLoss_compute_mean :
  forall (B W : nat) (m : matrix),
    has_shape B W m ->
    (1 <= B)%nat ->
    (2 <= W)%nat ->
    SoftmaxLoss.compute m = Ret (Num (spec_softmax_loss m))
    /\ (Forall (fun row => row = [1; 0]) m ->
        SoftmaxLoss.compute m = Ret (Num (1 - nth 0 (softmax [1; 0]) 0))
        /\ Rabs (1 - nth 0 (softmax [1; 0]) 0 - 0.269) < 0.001).
Proof.
  intros B W m Hs HB HW.
  assert (Hne : map (fun row => 1 - nth 0 (softmax row) 0) m <> []).
  { destruct Hs as [Hlen _]. destruct m; [simpl in Hlen; lia | discriminate]. }
  assert (Hc : SoftmaxLoss.compute m = Ret (Num (spec_softmax_loss m))).
  { rewrite (SoftmaxLoss_compute_rows B W m Hs) by lia.
    rewrite (mean_nonempty _ Hne). unfold spec_softmax_loss.
    now rewrite length_map. }
  split; [exact Hc | ]. intros Hrows. split; [ | exact softmax_1_0_value].
  rewrite Hc. do 2 f_equal. unfold spec_softmax_loss.
  set (c := 1 - nth 0 (softmax [1; 0]) 0).
  rewrite (Rsum_constant c).
  - rewrite length_map. field. apply not_0_INR.
    destruct Hs as [Hlen _]. lia.
  - apply Forall_map. eapply Forall_impl; [ | exact Hrows].
    intros row Hrow. simpl in Hrow. now rewrite Hrow.
Qed.

End LossFacts.

(** Two pairs scored [[1, 0]], as by a scorer that always returns these. *)
Lemma SoftmaxLoss_compute_mean_witness :
  Pairwise.SoftmaxLoss.compute [[1; 0]; [1; 0]]%R
  = Ret (Torch.Num (Pairwise.spec_softmax_loss [[1; 0]; [1; 0]]%R))
  /\ (Forall (fun row => row = [1; 0]%R) [[1; 0]; [1; 0]]%R ->
      Pairwise.SoftmaxLoss.compute [[1; 0]; [1; 0]]%R
      = Ret (Torch.Num (1 - nth 0 (Torch.softmax [1; 0]) 0)%R)
      /\ (Rabs (1 - nth 0 (Torch.softmax [1; 0]) 0 - 0.269) < 0.001)%R).
Proof.
  apply (SoftmaxLoss_compute_mean 2 2 [[1; 0]; [1; 0]]%R).
  - split; [reflexivity | ].
    constructor; [reflexivity | constructor; [reflexivity | constructor]].
  - lia.
  - lia.
Defined.

(** The single row [(0.3, 0.9)] under the default margin. *)
Lemma HingeLoss_compute_mean_relu_witness :
  Pairwise.HingeLoss.compute Pairwise.HingeLoss.default [[0.3; 0.9]]%R
  = Ret (Torch.Num 1.6%R).
Proof.
  refine (proj2 (proj2 (proj2
    (HingeLoss_compute_mean_relu Pairwise.HingeLoss.default 1 2 [[0.3; 0.9]]%R
       _ _ _)))).
  - split; [reflexivity | ]. constructor; [reflexivity | constructor].
  - lia.
  - lia.
Defined.

(** * Further properties of the code *)

(** ** The pairwise losses *)

Section MoreLossFacts.

Import Torch Pairwise.
Local Open Scope R_scope.

Lemma Rsum_map_le {A : Type} (f g : A -> R) (l : list A) :
  (forall a, In a l -> f a <= g a) ->
  Rsum (map f l) <= Rsum (map g l).
Proof.
  induction l as [ | a l IH]; intros H; simpl; [lra | ].
  fold (Rsum (map f l)) (Rsum (map g l)).
  pose proof (H a (or_introl eq_refl)).
  assert (Rsum (map f l) <= Rsum (map g l)).
  { apply IH. intros b Hb. apply H. now right. }
  lra.
Qed.

Lemma Rsum_nonneg (l : list R) :
  Forall (fun x => 0 <= x) l -> 0 <= Rsum l.
Proof.
  induction 1 as [ | x l Hx _ IH]; simpl; [lra | ].
  fold (Rsum l). lra.
Qed.

(** A sum of non-negative numbers is 0 only when all of them are. *)
Lemma Rsum_zero_iff (l : list R) :
  Forall (fun x => 0 <= x) l ->
  (Rsum l = 0 <-> Forall (fun x => x = 0) l).
Proof.
  induction 1 as [ | x l Hx Hl IH]; simpl.
  - split; [constructor | reflexivity].
  - fold (Rsum l). pose proof (Rsum_nonneg l Hl) as Hs. split.
    + intros H. assert (x = 0 /\ Rsum l = 0) as [E1 E2] by lra.
      constructor; [exact E1 | now apply IH].
    + intros H. inversion H as [ | ? ? E1 E2]; subst.
      apply IH in E2. lra.
Qed.

Lemma Rsum_exp_pos (x : R) (rest : list R) :
  exp x <= Rsum (map exp (x :: rest)) /\ 0 < Rsum (map exp (x :: rest)).
Proof.
  assert (H : 0 <= Rsum (map exp rest)).
  { apply Rsum_nonneg, Forall_map, Forall_forall. intros y _.
    left. apply exp_pos. }
  pose proof (exp_pos x). simpl. fold (Rsum (map exp rest)). lra.
Qed.

(** The softmax probability of the positive lies in [(0, 1]]; it is 1 when
    the row has no negative. *)
Lemma softmax_head_bounds (x : R) (rest : list R) :
  0 < nth 0 (softmax (x :: rest)) 0 <= 1
  /\ (rest = [] -> nth 0 (softmax (x :: rest)) 0 = 1).
Proof.
  destruct (Rsum_exp_pos x rest) as [H1 H2].
  cbn [softmax map nth].
  change (exp x :: map exp rest) with (map exp (x :: rest)).
  set (S := Rsum (map exp (x :: rest))) in *.
  pose proof (exp_pos x) as Hx.
  assert (Hinv : 0 < / S) by now apply Rinv_0_lt_compat.
  repeat split.
  - unfold Rdiv. now apply Rmult_lt_0_compat.
  - apply (Rmult_le_reg_r S); [exact H2 | ].
    unfold Rdiv. rewrite Rmult_assoc, Rinv_l by lra. lra.
  - intros ->. unfold S. simpl. field. lra.
Qed.

(** [- log_softmax(row)[0]] is [- ln] of the softmax probability of the
    positive, which is at least [1 -] that probability. *)
Lemma log_softmax_head (x : R) (rest : list R) :
  1 - nth 0 (softmax (x :: rest)) 0 <= - nth 0 (log_softmax (x :: rest)) 0.
Proof.
  destruct (Rsum_exp_pos x rest) as [_ H2].
  cbn [softmax log_softmax map nth].
  change (exp x :: map exp rest) with (map exp (x :: rest)).
  set (S := Rsum (map exp (x :: rest))) in *.
  assert (E : exp x / S = exp (x - ln S)).
  { unfold Rminus. rewrite exp_plus, exp_Ropp, exp_ln by exact H2. reflexivity. }
  rewrite E. pose proof (exp_ineq1_le (x - ln S)). lra.
Qed.

Lemma SoftmaxLoss_compute_rows1 (B W : nat) (m : matrix) :
  has_shape B W m -> (1 <= B)%nat -> (1 <= W)%nat ->
  SoftmaxLoss.compute m
  = Ret (Num (Rsum (map (fun row => 1 - nth 0 (softmax row) 0) m) / INR B)).
Proof.
  intros Hs HB HW. rewrite (SoftmaxLoss_compute_rows B W m Hs HW).
  rewrite mean_nonempty.
  - rewrite length_map. now destruct Hs as [-> _].
  - destruct Hs as [Hlen _]. destruct m; [simpl in Hlen; lia | discriminate].
Qed.

Lemma CrossEntropyLoss_compute_rows (B W : nat) (m : matrix) :
  has_shape B W m -> (1 <= B)%nat -> (1 <= W)%nat ->
  CrossEntropyLoss.compute m
  = Ret (Num (Rsum (map (fun row => - nth 0 (log_softmax row) 0) m) / INR B)).
Proof.
  intros [Hlen HW] HB H1. unfold CrossEntropyLoss.compute.
  rewrite (mapM_Ret _ (fun row => - nth 0 (log_softmax row) 0)).
  - simpl. rewrite mean_nonempty.
    + now rewrite length_map, Hlen.
    + destruct m; [simpl in Hlen; lia | discriminate].
  - intros row Hrow. rewrite Forall_forall in HW. specialize (HW row Hrow).
    destruct row as [ | x rest]; [simpl in HW; lia | reflexivity].
Qed.

Lemma rows_nonempty (B W : nat) (m : matrix) :
  has_shape B W m -> (1 <= W)%nat ->
  forall row, In row m -> exists x rest, row = x :: rest.
Proof.
  intros [_ HW] H1 row Hrow. rewrite Forall_forall in HW.
  specialize (HW row Hrow).
  destruct row as [ | x rest]; [simpl in HW; lia | now exists x, rest].
Qed.

(** [- log_softmax(row)[0]] is not negative, and it is 0 when the row has
    no negative. *)
Lemma log_softmax_head_nonpos (x : R) (rest : list R) :
  0 <= - nth 0 (log_softmax (x :: rest)) 0
  /\ (rest = [] -> - nth 0 (log_softmax (x :: rest)) 0 = 0).
Proof.
  split.
  - pose proof (log_softmax_head x rest).
    pose proof (softmax_head_bounds x rest). lra.
  - intros ->. cbn [log_softmax map nth]. simpl.
    rewrite Rplus_0_r, ln_exp. ring.
Qed.

(** X1: On finite scores, at least one row and one column, the softmax loss
    lies in [[0, 1]]; with the positive alone in its row it is 0. *)
Theorem SoftmaxLoss_compute_bounds :
  forall (B W : nat) (m : matrix),
    has_shape B W m ->
    (1 <= B)%nat ->
    (1 <= W)%nat ->
    exists v : R,
      SoftmaxLoss.compute m = Ret (Num v)
      /\ 0 <= v <= 1
      /\ (W = 1%nat -> v = 0).
Proof.
  intros B W m Hs HB HW.
  pose proof (rows_nonempty B W m Hs HW) as Hne.
  assert (HB0 : 0 < INR B) by (apply lt_0_INR; lia).
  exists (Rsum (map (fun row => 1 - nth 0 (softmax row) 0) m) / INR B).
  split; [apply (SoftmaxLoss_compute_rows1 B W m Hs HB HW) | ].
  assert (Hlo : Rsum (map (fun _ : list R => 0) m)
                <= Rsum (map (fun row => 1 - nth 0 (softmax row) 0) m)).
  { apply Rsum_map_le. intros row Hrow.
    destruct (Hne row Hrow) as [x [rest ->]].
    pose proof (softmax_head_bounds x rest). lra. }
  assert (Hz : Rsum (map (fun _ : list R => 0) m) = 0).
  { rewrite (Rsum_constant 0); [ring | ].
    apply Forall_map, Forall_forall. reflexivity. }
  assert (Hhi : Rsum (map (fun row => 1 - nth 0 (softmax row) 0) m)
                <= Rsum (map (fun _ : list R => 1) m)).
  { apply Rsum_map_le. intros row Hrow.
    destruct (Hne row Hrow) as [x [rest ->]].
    pose proof (softmax_head_bounds x rest). lra. }
  assert (Ho : Rsum (map (fun _ : list R => 1) m) = INR B).
  { rewrite (Rsum_constant 1).
    - rewrite length_map. destruct Hs as [-> _]. ring.
    - apply Forall_map, Forall_forall. reflexivity. }
  split; [split | ].
  - apply Rmult_le_pos; [lra | left; now apply Rinv_0_lt_compat].
  - apply (Rmult_le_reg_r (INR B)); [exact HB0 | ].
    unfold Rdiv. rewrite Rmult_assoc, Rinv_l, Rmult_1_r, Rmult_1_l by lra.
    lra.
  - intros ->. destruct Hs as [_ HW1].
    assert (E : Rsum (map (fun row => 1 - nth 0 (softmax row) 0) m) = 0).
    { rewrite (Rsum_constant 0); [ring | ].
      apply Forall_map. eapply Forall_impl; [ | exact HW1].
      intros row Hrow. simpl in Hrow.
      destruct row as [ | x [ | y rest]]; try discriminate Hrow.
      destruct (softmax_head_bounds x []) as [_ E]. rewrite (E eq_refl). ring. }
    rewrite E. unfold Rdiv. ring.
Qed.

(** X2: On finite scores, at least one row and one column, the cross-entropy
    loss is not negative; with the positive alone in its row it is 0. *)
Theorem CrossEntropyLoss_compute_nonneg :
  forall (B W : nat) (m : matrix),
    has_shape B W m ->
    (1 <= B)%nat ->
    (1 <= W)%nat ->
    exists ce : R,
      CrossEntropyLoss.compute m = Ret (Num ce)
      /\ 0 <= ce
      /\ (W = 1%nat -> ce = 0).
Proof.
  intros B W m Hs HB HW.
  pose proof (rows_nonempty B W m Hs HW) as Hne.
  assert (HB0 : 0 < / INR B).
  { apply Rinv_0_lt_compat, lt_0_INR. lia. }
  exists (Rsum (map (fun row => - nth 0 (log_softmax row) 0) m) / INR B).
  split; [apply (CrossEntropyLoss_compute_rows B W m Hs HB HW) | ].
  split.
  - assert (H0 : 0 <= Rsum (map (fun row => - nth 0 (log_softmax row) 0) m)).
    { apply Rsum_nonneg, Forall_map, Forall_forall. intros row Hrow.
      destruct (Hne row Hrow) as [x [rest ->]].
      apply log_softmax_head_nonpos. }
    unfold Rdiv. apply Rmult_le_pos; lra.
  - intros ->. destruct Hs as [_ HW1].
    assert (E : Rsum (map (fun row => - nth 0 (log_softmax row) 0) m) = 0).
    { rewrite (Rsum_constant 0); [ring | ].
      apply Forall_map. eapply Forall_impl; [ | exact HW1].
      intros row Hrow. simpl in Hrow.
      destruct row as [ | x [ | y rest]]; try discriminate Hrow.
      apply log_softmax_head_nonpos. reflexivity. }
    rewrite E. unfold Rdiv. ring.
Qed.

Lemma relu_nonneg (x : R) : 0 <= relu x.
Proof. unfold relu. apply Rmax_l. Qed.

Lemma relu_nonpos (x : R) : x <= 0 -> relu x = 0.
Proof. intros H. unfold relu. now apply Rmax_left. Qed.

Lemma hinge_entries_nonneg (margin : R) (m : matrix) :
  Forall (fun x => 0 <= x) (hinge_entries margin m).
Proof.
  unfold hinge_entries. apply Forall_flat_map, Forall_forall.
  intros row _. destruct row as [ | positive negatives]; [constructor | ].
  apply Forall_map, Forall_forall. intros negative _. apply relu_nonneg.
Qed.

Lemma hinge_entries_separated (margin : R) (m : matrix) :
  Forall (separated margin) m ->
  Forall (fun x => x = 0) (hinge_entries margin m).
Proof.
  intros H. unfold hinge_entries. rewrite Forall_flat_map.
  eapply Forall_impl; [ | exact H]. intros row Hrow.
  destruct row as [ | positive negatives]; simpl in *; [constructor | ].
  apply Forall_map. eapply Forall_impl; [ | exact Hrow].
  intros negative Hn. simpl. apply relu_nonpos. lra.
Qed.

(** The hinge loss on at least one row and two columns is the mean of its
    entries, of which there is at least one. *)
Lemma HingeLoss_compute_Num (self : HingeLoss.t) (B W : nat) (m : matrix) :
  has_shape B W m -> (1 <= B)%nat -> (2 <= W)%nat ->
  let es := hinge_entries (HingeLoss.margin self) m in
  HingeLoss.compute self m = Ret (Num (Rsum es / INR (List.length es)))
  /\ 0 < / INR (List.length es).
Proof.
  intros Hs HB HW es.
  pose proof (hinge_entries_length (HingeLoss.margin self) B W m Hs) as Hlen.
  fold es in Hlen.
  assert (Hn : (1 <= List.length es)%nat) by (rewrite Hlen; nia).
  split.
  - rewrite HingeLoss_compute_entries. fold es. apply f_equal, mean_nonempty.
    intros E. rewrite E in Hn. simpl in Hn. lia.
  - apply Rinv_0_lt_compat, lt_0_INR. lia.
Qed.

(** X4: On finite scores, at least one row and two columns, the hinge loss
    is not negative, and it is 0 when in every row the positive is ahead of
    each negative by the margin at least. *)
Theorem HingeLoss_compute_zero_when_separated :
  forall (self : HingeLoss.t) (B W : nat) (m : matrix),
    has_shape B W m ->
    (1 <= B)%nat ->
    (2 <= W)%nat ->
    exists v : R,
      HingeLoss.compute self m = Ret (Num v)
      /\ 0 <= v
      /\ (Forall (separated (HingeLoss.margin self)) m -> v = 0).
Proof.
  intros self B W m Hs HB HW.
  destruct (HingeLoss_compute_Num self B W m Hs HB HW) as [E Hinv].
  eexists. split; [exact E | ]. split.
  - pose proof (Rsum_nonneg _ (hinge_entries_nonneg (HingeLoss.margin self) m)).
    unfold Rdiv. apply Rmult_le_pos; lra.
  - intros Hsep. rewrite (Rsum_constant 0).
    + unfold Rdiv. ring.
    + now apply hinge_entries_separated.
Qed.

(** X5: Without a negative in any row (one column, or no row at all) the hinge
    loss is the mean of an empty tensor, NaN. *)
Theorem HingeLoss_compute_no_negative :
  forall (self : HingeLoss.t) (m : matrix),
    Forall (fun row => (List.length row <= 1)%nat) m ->
    HingeLoss.compute self m = Ret NaN.
Proof.
  intros self m H. rewrite HingeLoss_compute_entries.
  assert (E : hinge_entries (HingeLoss.margin self) m = []).
  { unfold hinge_entries. induction H as [ | row m Hrow _ IH]; [reflexivity | ].
    cbn [flat_map]. rewrite IH.
    destruct row as [ | x [ | y rest]]; simpl in *; try reflexivity. lia. }
  now rewrite E.
Qed.

End MoreLossFacts.

(** Two rows in which the positive is alone. *)
Lemma SoftmaxLoss_compute_bounds_witness :
  exists v : R,
    Pairwise.SoftmaxLoss.compute [[2]; [5]]%R = Ret (Torch.Num v)
    /\ (0 <= v <= 1)%R
    /\ (1%nat = 1%nat -> v = 0%R).
Proof.
  apply (SoftmaxLoss_compute_bounds 2 1 [[2]; [5]]%R).
  - split; [reflexivity | ].
    constructor; [reflexivity | constructor; [reflexivity | constructor]].
  - lia.
  - lia.
Defined.

Lemma CrossEntropyLoss_compute_nonneg_witness :
  exists ce : R,
    Pairwise.CrossEntropyLoss.compute [[1; 0]; [0; 3]]%R = Ret (Torch.Num ce)
    /\ (0 <= ce)%R
    /\ (2%nat = 1%nat -> ce = 0%R).
Proof.
  apply (CrossEntropyLoss_compute_nonneg 2 2 [[1; 0]; [0; 3]]%R).
  - split; [reflexivity | ].
    constructor; [reflexivity | constructor; [reflexivity | constructor]].
  - lia.
  - lia.
Defined.

(** The default margin 1: the positive 3 is ahead of 1 and of 2 by 1 at
    least. *)
Lemma HingeLoss_compute_zero_when_separated_witness :
  exists v : R,
    Pairwise.HingeLoss.compute Pairwise.HingeLoss.default [[3; 1; 2]]%R
    = Ret (Torch.Num v)
    /\ (0 <= v)%R
    /\ (Forall (Pairwise.separated
                  (Pairwise.HingeLoss.margin Pairwise.HingeLoss.default))
               [[3; 1; 2]]%R -> v = 0%R).
Proof.
  apply (HingeLoss_compute_zero_when_separated Pairwise.HingeLoss.default 1 3
           [[3; 1; 2]]%R).
  - split; [reflexivity | ]. constructor; [reflexivity | constructor].
  - lia.
  - lia.
Defined.

Lemma HingeLoss_compute_no_negative_witness :
  Pairwise.HingeLoss.compute Pairwise.HingeLoss.default [[3]; [4]]%R
  = Ret Torch.NaN.
Proof.
  apply (HingeLoss_compute_no_negative Pairwise.HingeLoss.default [[3]; [4]]%R).
  constructor; [simpl; lia | constructor; [simpl; lia | constructor]].
Defined.

(** ** The training step *)

Section ReshapeFacts.

Import Torch.

Context {A : Type}.

Lemma chunks_shape (rows cols : nat) :
  forall l : list A,
    List.length l = (rows * cols)%nat ->
    has_shape rows cols (chunks rows cols l).
Proof.
  induction rows as [ | rows IH]; intros l Hl.
  - split; [reflexivity | constructor].
  - assert (Hr : List.length (skipn cols l) = (rows * cols)%nat).
    { rewrite length_skipn. simpl in Hl. lia. }
    destruct (IH _ Hr) as [H1 H2]. split.
    + simpl. now rewrite H1.
    + cbn [chunks]. constructor; [ | exact H2].
      rewrite length_firstn. simpl in Hl. lia.
Qed.

Lemma chunks_concat (rows cols : nat) :
  forall l : list A,
    List.length l = (rows * cols)%nat ->
    List.concat (chunks rows cols l) = l.
Proof.
  induction rows as [ | rows IH]; intros l Hl.
  - simpl in *. now apply length_zero_iff_nil in Hl.
  - cbn [chunks List.concat]. rewrite IH.
    + apply firstn_skipn.
    + rewrite length_skipn. simpl in Hl. lia.
Qed.

(** [reshape] keeps the elements in order, [cols] to a row. *)
Lemma reshape_ok (l : list A) (rows cols : nat) :
  List.length l = (rows * cols)%nat ->
  reshape l rows cols = Ret (chunks rows cols l).
Proof.
  intros H. unfold reshape. now rewrite H, Nat.eqb_refl.
Qed.

Lemma reshape_fails (l : list A) (rows cols : nat) :
  List.length l <> (rows * cols)%nat ->
  reshape l rows cols = Raise (RuntimeError "shape is invalid for input size").
Proof.
  intros H. unfold reshape.
  destruct (Nat.eqb_spec (List.length l) (rows * cols)); [contradiction | reflexivity].
Qed.

End ReshapeFacts.

Section MoreTrainBatchFacts.

Import Torch Pairwise Pairwise.PairwiseTrainer.

Context {score : Type} {dtype : Dtype score}.
Variables (I PairwiseRecord Loss : Type).
Variable next : I -> option (PairwiseRecord * I).
Variable batch_size : nat.
Variable ranker : PairwiseRecords PairwiseRecord -> outcome (list score).
Variable lossfn_compute : list (list score) -> outcome Loss.

Local Abbreviation train_batch :=
  (Pairwise.PairwiseTrainer.train_batch next batch_size ranker lossfn_compute).
Local Abbreviation trainer :=
  (Pairwise.PairwiseTrainer.trainer (score := score) I PairwiseRecord).
Local Abbreviation pulled st := (zip_range next batch_size (train_iter st) []).

Lemma guard_false (rel_scores : list score) :
  (forall x, In x rel_scores -> isnan x = false /\ isinf x = false) ->
  existsb isnan rel_scores || existsb isinf rel_scores = false.
Proof.
  intros Hfin.
  destruct (existsb isnan rel_scores || existsb isinf rel_scores) eqn:E;
    [ | reflexivity].
  apply guard_true_iff in E. destruct E as [x [Hx H]].
  destruct (Hfin x Hx) as [H1 H2]. rewrite H1, H2 in H.
  destruct H; discriminate.
Qed.

(** X6: A full batch of finite scores: the step returns the loss of the
    [(batch_size, 2)] matrix whose rows are the consecutive pairs of the
    ranker's scores, together with an accuracy in [[0, 1]]; it has consumed
    one batch and called the ranker and the loss once each. *)
Theorem train_batch_returns_loss_and_accuracy :
  forall (st : trainer) (rel_scores : list score) (loss : Loss),
    ranker (fst (pulled st)) = Ret rel_scores ->
    (forall x, In x rel_scores -> isnan x = false /\ isinf x = false) ->
    (1 <= batch_size)%nat ->
    List.length rel_scores = (batch_size * 2)%nat ->
    lossfn_compute (chunks batch_size 2 rel_scores) = Ret loss ->
    exists a : Q,
      train_batch st
      = (Ret (loss, {| metric_loss := loss; metric_acc := Some a |}),
         {| train_iter := snd (pulled st);
            calls := calls st ++
                     [CallRanker (fst (pulled st));
                      CallLossCompute (chunks batch_size 2 rel_scores)] |})
      /\ (0 <= a)%Q /\ (a <= 1)%Q
      /\ has_shape batch_size 2 (chunks batch_size 2 rel_scores)
      /\ List.concat (chunks batch_size 2 rel_scores) = rel_scores.
Proof.
  intros st rel_scores loss Hr Hfin HB Hlen Hl.
  pose proof (chunks_shape batch_size 2 rel_scores Hlen) as Hs.
  destruct (train_batch_finite I PairwiseRecord Loss next batch_size ranker
              lossfn_compute st rel_scores _ loss Hr Hfin
              (reshape_ok rel_scores batch_size 2 Hlen) Hl) as [a [Ha Ht]].
  rewrite (acc_value batch_size 2 _ Hs HB) in Ha.
  assert (Hc : (Z.of_nat batch_size * (Z.of_nat 2 - 1))%Z = Z.of_nat batch_size) by lia.
  rewrite Hc in Ha.
  destruct (Z.eqb_spec (Z.of_nat batch_size) 0) as [E | _]; [lia | ].
  injection Ha as <-.
  eexists. split; [exact Ht | ].
  pose proof (wins_le batch_size 2 _ Hs) as Hw.
  destruct (Q_fraction_bounds (Z.of_nat (wins (chunks batch_size 2 rel_scores)))
              (Z.of_nat batch_size)) as [H0 H1]; [lia | lia | ].
  repeat split; try assumption.
  - apply Hs.
  - apply Hs.
  - now apply chunks_concat.
Qed.

(** X7: When the ranker does not return [2 * batch_size] scores, [reshape]
    raises and the loss is not computed.  This is what happens on the last
    records of a finite iterator: a batch that the iterator cannot fill,
    scored with two scores per record, makes the step fail. *)
Theorem train_batch_partial_batch_fails :
  forall (st : trainer) (rel_scores : list score),
    ranker (fst (pulled st)) = Ret rel_scores ->
    (forall x, In x rel_scores -> isnan x = false /\ isinf x = false) ->
    List.length rel_scores = (List.length (fst (pulled st)) * 2)%nat ->
    ~ Iter.can_supply next batch_size (train_iter st) ->
    exists msg : string,
      train_batch st
      = (Raise (RuntimeError msg),
         {| train_iter := snd (pulled st);
            calls := calls st ++ [CallRanker (fst (pulled st))] |}).
Proof.
  intros st rel_scores Hr Hfin Hlen Hshort. eexists.
  assert (Hne : List.length rel_scores <> (batch_size * 2)%nat).
  { rewrite Hlen. rewrite zip_range_drain. simpl.
    pose proof (drain_length_le I PairwiseRecord next batch_size (train_iter st)).
    unfold Iter.can_supply in Hshort. lia. }
  unfold Pairwise.PairwiseTrainer.train_batch, bindM at 1, next_train_iter, iter_batches.
  destruct (zip_range next batch_size (train_iter st) []) as [batch it'] eqn:E.
  simpl in Hr. unfold bindM at 1, record_call. cbn [train_iter calls].
  unfold bindM at 1, liftM at 1. rewrite Hr, (guard_false rel_scores Hfin).
  unfold bindM at 1, liftM at 1.
  now rewrite (reshape_fails rel_scores batch_size 2 Hne).
Qed.

(** With a loss that raises on every input, no step ever returns. *)
Lemma train_batch_loss_raises (st : trainer) :
  (forall m, raises (lossfn_compute m)) ->
  exists e st', train_batch st = (Raise e, st').
Proof.
  intros Hl.
  unfold Pairwise.PairwiseTrainer.train_batch, bindM at 1, next_train_iter, iter_batches.
  destruct (zip_range next batch_size (train_iter st) []) as [batch it'].
  unfold bindM at 1, record_call. cbn [train_iter calls].
  unfold bindM at 1, liftM at 1.
  destruct (ranker batch) as [rel_scores | e]; [ | now eexists; eexists].
  destruct (existsb isnan rel_scores || existsb isinf rel_scores).
  { unfold bindM, record_call, sys_exit. now eexists; eexists. }
  unfold bindM at 1, liftM at 1.
  destruct (reshape rel_scores batch_size 2) as [pairwise_scores | e];
    [ | now eexists; eexists].
  unfold bindM at 1, record_call. cbn [train_iter calls].
  unfold bindM at 1, liftM at 1.
  destruct (Hl pairwise_scores) as [e He]. rewrite He.
  now eexists; eexists.
Qed.

End MoreTrainBatchFacts.

(** X8: A trainer whose loss is [NogueiraCrossEntropyLoss] or [pointwise] never
    completes a step: the scores reach the loss as a rank-2 tensor, on which
    [log_softmax(dim=2)] raises. *)
Theorem train_batch_Nogueira_never_returns :
  forall (score : Type) (dtype : Pairwise.Dtype score) (I PairwiseRecord : Type)
         (next : I -> option (PairwiseRecord * I)) (batch_size : nat)
         (ranker : list PairwiseRecord -> outcome (list score))
         (values : list (list score) -> Pairwise.matrix)
         (st : Pairwise.PairwiseTrainer.trainer I PairwiseRecord),
    (exists e st',
        Pairwise.PairwiseTrainer.train_batch next batch_size ranker
          (fun m => Pairwise.NogueiraCrossEntropyLoss.compute (Pairwise.T2 (values m)))
          st = (Raise e, st'))
    /\ (exists e st',
          Pairwise.PairwiseTrainer.train_batch next batch_size ranker
            (fun m => Pairwise.pointwise.compute (Pairwise.T2 (values m)))
            st = (Raise e, st')).
Proof.
  intros. split; apply train_batch_loss_raises; intros m; eexists; reflexivity.
Qed.

(** Two records per batch and four finite scores. *)
Lemma train_batch_returns_loss_and_accuracy_witness :
  let ranker := fun _ : list nat =>
    Ret [PrimFloat.one; PrimFloat.zero; PrimFloat.zero; PrimFloat.one] in
  let lossfn := fun _ : list (list PrimFloat.float) => Ret tt in
  let st := {| Pairwise.PairwiseTrainer.train_iter := [5; 6; 7]%nat;
               Pairwise.PairwiseTrainer.calls := [] |} in
  exists a : Q,
    Pairwise.PairwiseTrainer.train_batch (dtype := Pairwise.float_dtype)
      (@Iter.list_next nat) 2 ranker lossfn st
    = (Ret (tt, {| Pairwise.PairwiseTrainer.metric_loss := tt;
                   Pairwise.PairwiseTrainer.metric_acc := Some a |}),
       {| Pairwise.PairwiseTrainer.train_iter := [7]%nat;
          Pairwise.PairwiseTrainer.calls :=
            [Pairwise.PairwiseTrainer.CallRanker [5; 6]%nat;
             Pairwise.PairwiseTrainer.CallLossCompute
               [[PrimFloat.one; PrimFloat.zero];
                [PrimFloat.zero; PrimFloat.one]]] |})
    /\ (0 <= a)%Q /\ (a <= 1)%Q.
Proof.
  intros ranker lossfn st.
  destruct (train_batch_returns_loss_and_accuracy (dtype := Pairwise.float_dtype)
              (list nat) nat unit (@Iter.list_next nat) 2%nat ranker lossfn st
              [PrimFloat.one; PrimFloat.zero; PrimFloat.zero; PrimFloat.one] tt
              eq_refl)
    as [a [H [H0 [H1 _]]]].
  - intros x [<- | [<- | [<- | [<- | []]]]]; split; reflexivity.
  - lia.
  - reflexivity.
  - reflexivity.
  - exists a. split; [exact H | split; assumption].
Defined.

(** One record left for batches of two. *)
Lemma train_batch_partial_batch_fails_witness :
  let ranker := fun _ : list nat => Ret [PrimFloat.one; PrimFloat.zero] in
  let lossfn := fun _ : list (list PrimFloat.float) => Ret tt in
  let st := {| Pairwise.PairwiseTrainer.train_iter := [7]%nat;
               Pairwise.PairwiseTrainer.calls := [] |} in
  exists msg : string,
    Pairwise.PairwiseTrainer.train_batch (dtype := Pairwise.float_dtype)
      (@Iter.list_next nat) 2 ranker lossfn st
    = (Raise (RuntimeError msg),
       {| Pairwise.PairwiseTrainer.train_iter := []%nat;
          Pairwise.PairwiseTrainer.calls :=
            [Pairwise.PairwiseTrainer.CallRanker [7]%nat] |}).
Proof.
  intros ranker lossfn st.
  apply (train_batch_partial_batch_fails (dtype := Pairwise.float_dtype)
           (list nat) nat unit (@Iter.list_next nat) 2%nat ranker lossfn st
           [PrimFloat.one; PrimFloat.zero] eq_refl).
  - intros x [<- | [<- | []]]; split; reflexivity.
  - reflexivity.
  - unfold Iter.can_supply. simpl. lia.
Defined.

(** ** The accuracy *)

Section MoreAccFacts.

Import Torch Pairwise Pairwise.PairwiseTrainer.

Context {score : Type} {dtype : Dtype score}.








(** X10: Without a negative to compare with (one column, or no row) the
    accuracy divides 0 by 0. *)
Theorem acc_no_negative :
  forall m : list (list score),
    Forall (fun row => List.length row = 1%nat) m ->
    acc m = Ret None.
Proof.
  intros m H. unfold acc. rewrite broadcast2_slices_id. simpl.
  destruct H as [ | row m Hrow _]; simpl; [reflexivity | ].
  rewrite Hrow. reflexivity.
Qed.

End MoreAccFacts.


Lemma acc_no_negative_witness :
  Pairwise.PairwiseTrainer.acc (dtype := Pairwise.float_dtype)
    [[PrimFloat.one]; [PrimFloat.zero]] = Ret None.
Proof.
  apply (acc_no_negative (dtype := Pairwise.float_dtype)).
  repeat constructor.
Defined.

(** ** Dual scorers *)

Section MoreDualFacts.

Import Torch Dual.
Local Open Scope R_scope.

Lemma nth_map_in {A B : Type} (f : A -> B) (l : list A) (i : nat) (d : A) (d' : B) :
  (i < List.length l)%nat -> nth i (map f l) d' = f (nth i l d).
Proof.
  revert i. induction l as [ | a l IH]; intros i Hi; simpl in *; [lia | ].
  destruct i as [ | i]; [reflexivity | apply IH; lia].
Qed.

Lemma nth_map2 {A B C : Type} (f : A -> B -> C) (a : list A) (b : list B)
  (i : nat) (da : A) (db : B) (dc : C) :
  (i < List.length a)%nat -> (i < List.length b)%nat ->
  nth i (map2 f a b) dc = f (nth i a da) (nth i b db).
Proof.
  unfold map2. revert b i.
  induction a as [ | x a IH]; intros b i Ha Hb; simpl in *; [lia | ].
  destruct b as [ | y b]; simpl in *; [lia | ].
  destruct i as [ | i]; [reflexivity | apply IH; lia].
Qed.

Lemma score_product_dot_products (Bq Bd D : nat) (queries documents : vectors) :
  has_shape Bq D queries -> has_shape Bd D documents ->
  score_product queries documents
  = Ret (map (fun q => map (dot_product q) documents) queries).
Proof.
  intros [_ Hq] [_ Hd]. unfold score_product.
  apply mapM_Ret. intros q Hin. apply mapM_Ret. intros d Hdin.
  rewrite Forall_forall in Hq, Hd.
  apply dot_same_length. now rewrite (Hq q Hin), (Hd d Hdin).
Qed.

(** X11: On [B] queries and [B] documents, the score of the pair [i] is the
    entry [(i, i)] of the matrix of all the query-document products. *)
Theorem score_pairs_diagonal_of_score_product :
  forall (B D : nat) (queries documents : vectors),
    has_shape B D queries ->
    has_shape B D documents ->
    exists (product : list (list R)) (scores : list R),
      score_product queries documents = Ret product
      /\ pair_scores queries documents = Ret scores
      /\ has_shape B B product
      /\ List.length scores = B
      /\ (forall i, (i < B)%nat ->
                    nth i scores 0 = nth i (nth i product []) 0).
Proof.
  intros B D queries documents Hq Hd.
  exists (map (fun q => map (dot_product q) documents) queries),
         (map2 dot_product queries documents).
  split; [apply (score_product_dot_products B B D); assumption | ].
  split; [apply (pair_scores_dot_products B D); assumption | ].
  destruct Hq as [Hq _], Hd as [Hd _]. split; [ | split].
  - split; [now rewrite length_map | ].
    apply Forall_map, Forall_forall. intros q _. now rewrite length_map.
  - unfold map2. rewrite length_map, length_combine. lia.
  - intros i Hi.
    rewrite (nth_map2 dot_product queries documents i [] [] 0) by lia.
    rewrite (nth_map_in (fun q => map (dot_product q) documents) queries i [] [])
      by lia.
    now rewrite (nth_map_in (dot_product (nth i queries [])) documents i [] 0)
      by lia.
Qed.

(** X12: Vectors of different dimensions cannot be multiplied: [score_pairs]
    raises before any hook is called and leaves the context as it was. *)
Theorem score_pairs_dimension_mismatch :
  forall (U : Type) (B D D' : nat) (queries documents : vectors)
         (ctx : TrainerContext U),
    has_shape B D queries ->
    has_shape B D' documents ->
    (1 <= B)%nat ->
    D <> D' ->
    exists msg : string,
      score_pairs queries documents (Some ctx) = (Raise (RuntimeError msg), Some ctx).
Proof.
  intros U B D D' queries documents ctx [Hq HDq] [Hd HDd] HB Hne.
  eexists. apply score_pairs_product_fails.
  destruct queries as [ | q queries]; [simpl in Hq; lia | ].
  destruct documents as [ | d documents]; [simpl in Hd; lia | ].
  apply Forall_inv in HDq, HDd.
  assert (E : dot q d = Raise (RuntimeError "mat1 and mat2 shapes cannot be multiplied")).
  { unfold dot. rewrite HDq, HDd.
    destruct (Nat.eqb_spec D D'); [contradiction | reflexivity]. }
  unfold pair_scores.
  destruct queries as [ | q' queries]; destruct documents as [ | d' documents];
    simpl in Hq, Hd; try lia.
  - simpl. now rewrite E.
  - assert (Hl : List.length (q :: q' :: queries) = List.length (d :: d' :: documents))
      by (simpl; lia).
    rewrite Hl, Nat.eqb_refl. simpl. now rewrite E.
Qed.

(** X13: A single query vector is stretched over the documents (and a single
    document over the queries): the batch dimensions broadcast. *)
Theorem pair_scores_broadcasts_single_vector :
  forall (B D : nat) (v : list R) (others : vectors),
    List.length v = D ->
    has_shape B D others ->
    pair_scores [v] others = Ret (map (dot_product v) others)
    /\ pair_scores others [v] = Ret (map (fun o => dot_product o v) others).
Proof.
  intros B D v others Hv [_ Ho]. rewrite Forall_forall in Ho.
  assert (H1 : mapM (fun d => dot v d) others = Ret (map (dot_product v) others)).
  { apply mapM_Ret. intros d Hd. apply dot_same_length.
    now rewrite (Ho d Hd). }
  assert (H2 : mapM (fun q => dot q v) others
               = Ret (map (fun o => dot_product o v) others)).
  { apply mapM_Ret. intros q Hq. apply dot_same_length.
    now rewrite (Ho q Hq). }
  split; [exact H1 | ].
  unfold pair_scores.
  destruct others as [ | o [ | o' others]]; exact H2.
Qed.

End MoreDualFacts.

Section CosineFacts.

Import Torch Dual.
Local Open Scope R_scope.

Variable encoder : list string -> vectors.

(** X15: [CosineDense] encodes a null vector as NaN in every coordinate. *)
Theorem CosineDense_null_vector_NaN :
  forall (documents : list string) (row : list R),
    In row (encoder documents) ->
    Forall (fun x => x = 0) row ->
    In (map (fun _ => NaN) row) (CosineDense_encode_documents encoder documents).
Proof.
  intros documents row Hin Hz.
  unfold CosineDense_encode_documents, normalize.
  apply in_map_iff. exists row. split; [ | exact Hin].
  assert (Hn : norm row = 0).
  { unfold norm. rewrite (Rsum_constant 0).
    - rewrite Rmult_0_r. apply sqrt_0.
    - apply Forall_map. eapply Forall_impl; [ | exact Hz].
      intros x Hx. simpl in Hx. rewrite Hx. ring. }
  apply map_ext. intros x. unfold fdiv. rewrite Hn.
  destruct (Req_dec_T 0 0); [reflexivity | congruence].
Qed.

End CosineFacts.

Lemma CosineDense_null_vector_NaN_witness :
  let encoder := fun _ : list string => [[0; 0]; [1; 2]]%R in
  In [Torch.NaN; Torch.NaN]
     (Dual.CosineDense_encode_documents encoder ["d1"; "d2"]%string).
Proof.
  intros encoder.
  apply (CosineDense_null_vector_NaN encoder ["d1"; "d2"]%string [0; 0]%R).
  - left. reflexivity.
  - constructor; [reflexivity | constructor; [reflexivity | constructor]].
Defined.

Lemma score_pairs_diagonal_of_score_product_witness :
  exists (product : list (list R)) (scores : list R),
    Dual.score_product [[1; 2]; [3; 4]]%R [[5; 6]; [7; 8]]%R = Ret product
    /\ Dual.pair_scores [[1; 2]; [3; 4]]%R [[5; 6]; [7; 8]]%R = Ret scores
    /\ Torch.has_shape 2 2 product
    /\ List.length scores = 2%nat
    /\ (forall i, (i < 2)%nat ->
                  nth i scores 0%R = nth i (nth i product []) 0%R).
Proof.
  apply (score_pairs_diagonal_of_score_product 2 2).
  - split; [reflexivity | ].
    constructor; [reflexivity | constructor; [reflexivity | constructor]].
  - split; [reflexivity | ].
    constructor; [reflexivity | constructor; [reflexivity | constructor]].
Defined.

Lemma score_pairs_dimension_mismatch_witness :
  let ctx := {| Dual.registered := ([] : list (Dual.hook unit));
                Dual.content := tt; Dual.invocations := [] |} in
  exists msg : string,
    Dual.score_pairs [[1; 2]]%R [[5; 6; 7]]%R (Some ctx)
    = (Raise (RuntimeError msg), Some ctx).
Proof.
  intros ctx.
  apply (score_pairs_dimension_mismatch unit 1 2 3).
  - split; [reflexivity | ]. constructor; [reflexivity | constructor].
  - split; [reflexivity | ]. constructor; [reflexivity | constructor].
  - lia.
  - lia.
Defined.

Lemma pair_scores_broadcasts_single_vector_witness :
  Dual.pair_scores [[1; 2]]%R [[5; 6]; [7; 8]; [9; 10]]%R
  = Ret (map (Dual.dot_product [1; 2]%R) [[5; 6]; [7; 8]; [9; 10]]%R).
Proof.
  refine (proj1 (pair_scores_broadcasts_single_vector 3 2 [1; 2]%R
                   [[5; 6]; [7; 8]; [9; 10]]%R eq_refl _)).
  split; [reflexivity | ].
  constructor; [reflexivity | ].
  constructor; [reflexivity | ].
  constructor; [reflexivity | constructor].
Defined.

Section DistributeFacts.

Import Dual.

Variable Model : Type.
Variable update : Model -> Model.

Lemma set_model_same (h : models Model) (o : nat) (m : Model) :
  set_model h o m o = m.
Proof. unfold set_model. now rewrite Nat.eqb_refl. Qed.

Lemma set_model_other (h : models Model) (o o' : nat) (m : Model) :
  o' <> o -> set_model h o m o' = h o'.
Proof.
  intros H. unfold set_model.
  destruct (Nat.eqb_spec o' o); [contradiction | reflexivity].
Qed.

(** X16: [distribute_models] replaces the model of the document encoder first.
    Without a query encoder it then raises [AttributeError], the document
    encoder's model being replaced already.  With a query encoder that is
    another object, each of the two models is replaced by its update and
    no other object changes; when the two encoders are one object, its
    model is updated twice. *)
Theorem distribute_models_updates :
  forall (self : DotDense_refs) (h : models Model),
    let e := encoder_ref self in
    let h' := snd (distribute_models self update h) in
    (query_encoder_ref self = None ->
     (exists msg, fst (distribute_models self update h) = Raise (AttributeError msg))
     /\ h' e = update (h e)
     /\ (forall o, o <> e -> h' o = h o))
    /\ (forall q, query_encoder_ref self = Some q ->
        fst (distribute_models self update h) = Ret tt
        /\ (q <> e ->
            h' e = update (h e) /\ h' q = update (h q)
            /\ (forall o, o <> e -> o <> q -> h' o = h o))
        /\ (q = e ->
            h' e = update (update (h e))
            /\ (forall o, o <> e -> h' o = h o))).
Proof.
  intros self h e h'. unfold h', distribute_models. fold e. split.
  - intros ->. simpl. split; [eexists; reflexivity | ].
    split; [apply set_model_same | ].
    intros o Ho. now apply set_model_other.
  - intros q ->. simpl. split; [reflexivity | ]. split.
    + intros Hq. split; [ | split].
      * rewrite set_model_other by congruence. apply set_model_same.
      * rewrite set_model_same. now rewrite set_model_other.
      * intros o Ho1 Ho2. now rewrite !set_model_other.
    + intros ->. split.
      * now rewrite !set_model_same.
      * intros o Ho. now rewrite !set_model_other.
Qed.

End DistributeFacts.

(** ** [FlopsRegularizer.compute] *)

Section FlopsFacts.

Import Torch Dual Dual.FlopsRegularizerCompute.
Local Open Scope R_scope.

(** The mean of the absolute values of column [j]. *)
Local Abbreviation column_mean B x j :=
  (Rsum (map (fun row => Rabs (nth j row 0)) x) / INR B).

Lemma abs_mean0_Num (B D : nat) (x : vectors) :
  List.length x = B -> (1 <= B)%nat ->
  abs_mean0 D x = map Num (map (fun j => column_mean B x j) (seq 0 D)).
Proof.
  intros HB H1. unfold abs_mean0. rewrite map_map.
  apply map_ext. intros j. rewrite mean_nonempty.
  - now rewrite length_map, HB.
  - destruct x; [simpl in HB; lia | discriminate].
Qed.

Lemma sum_squares_Num (ys : list R) :
  sum_squares (map Num ys) = Num (sq_sum ys).
Proof.
  unfold sum_squares, sq_sum.
  induction ys as [ | y ys IH]; [reflexivity | ].
  cbn [map fold_right]. now rewrite IH.
Qed.

Lemma sq_sum_zero_iff (ys : list R) :
  sq_sum ys = 0 <-> Forall (fun y => y = 0) ys.
Proof.
  unfold sq_sum. rewrite Rsum_zero_iff.
  - rewrite Forall_map. split; intros H; eapply Forall_impl; try exact H;
      intros y Hy; simpl in *; nra.
  - apply Forall_map, Forall_forall. intros y _. nra.
Qed.

Lemma column_mean_nonneg (B : nat) (x : vectors) (j : nat) :
  (1 <= B)%nat -> 0 <= column_mean B x j.
Proof.
  intros HB. apply Rmult_le_pos.
  - apply Rsum_nonneg, Forall_map, Forall_forall. intros row _. apply Rabs_pos.
  - left. apply Rinv_0_lt_compat, lt_0_INR. lia.
Qed.

Lemma column_mean_zero_iff (B : nat) (x : vectors) (j : nat) :
  (1 <= B)%nat ->
  (column_mean B x j = 0 <-> Forall (fun row => nth j row 0 = 0) x).
Proof.
  intros HB.
  assert (Hinv : 0 < / INR B) by (apply Rinv_0_lt_compat, lt_0_INR; lia).
  assert (Hnn : Forall (fun a => 0 <= a) (map (fun row => Rabs (nth j row 0)) x)).
  { apply Forall_map, Forall_forall. intros row _. apply Rabs_pos. }
  pose proof (Rsum_nonneg _ Hnn) as Hs.
  pose proof (Rsum_zero_iff _ Hnn) as Hz. rewrite Forall_map in Hz.
  split; intros H.
  - assert (E : Rsum (map (fun row => Rabs (nth j row 0)) x) = 0).
    { unfold Rdiv in H. nra. }
    apply Hz in E. eapply Forall_impl; [ | exact E].
    intros row Hrow. simpl in Hrow.
    destruct (Req_dec (nth j row 0) 0) as [E0 | N]; [exact E0 | ].
    apply Rabs_no_R0 in N. contradiction.
  - assert (E : Rsum (map (fun row => Rabs (nth j row 0)) x) = 0).
    { apply Hz. eapply Forall_impl; [ | exact H].
      intros row Hrow. simpl in Hrow. rewrite Hrow. apply Rabs_R0. }
    rewrite E. unfold Rdiv. ring.
Qed.

Lemma all_columns_zero (B D : nat) (x : vectors) :
  has_shape B D x ->
  (Forall (fun j => Forall (fun row => nth j row 0 = 0) x) (seq 0 D)
   <-> Forall (Forall (fun v => v = 0)) x).
Proof.
  intros [_ HD]. rewrite !Forall_forall. rewrite Forall_forall in HD.
  split; intros H.
  - intros row Hrow. apply Forall_forall. intros v Hv.
    destruct (In_nth _ _ 0 Hv) as [j [Hj Ej]].
    rewrite (HD row Hrow) in Hj.
    assert (Hin : In j (seq 0 D)) by (apply in_seq; lia).
    specialize (H j Hin). rewrite Forall_forall in H.
    rewrite <- Ej. now apply H.
  - intros j Hj. apply Forall_forall. intros row Hrow.
    specialize (H row Hrow). rewrite Forall_forall in H.
    apply in_seq in Hj. apply H, nth_In. rewrite (HD row Hrow). lia.
Qed.

(** X17: On at least one vector of finite coordinates, [compute] returns one
    non-negative mean per dimension and the sum of their squares, which is
    not negative, and is 0 when all the vectors are null. *)
Theorem FlopsRegularizer_compute_nonneg :
  forall (B D : nat) (x : vectors),
    has_shape B D x ->
    (1 <= B)%nat ->
    exists (ys : list R) (flops : R),
      compute D x = (map Num ys, Num flops)
      /\ List.length ys = D
      /\ Forall (fun y => 0 <= y) ys
      /\ flops = sq_sum ys
      /\ 0 <= flops
      /\ (Forall (Forall (fun v => v = 0)) x -> flops = 0).
Proof.
  intros B D x Hs HB. destruct Hs as [Hlen HD].
  set (ys := map (fun j => column_mean B x j) (seq 0 D)).
  exists ys, (sq_sum ys).
  split; [ | split; [ | split; [ | split; [reflexivity | split]]]].
  - unfold compute. rewrite (abs_mean0_Num B D x Hlen HB). fold ys.
    now rewrite sum_squares_Num.
  - unfold ys. now rewrite length_map, length_seq.
  - unfold ys. apply Forall_map, Forall_forall. intros j _.
    now apply column_mean_nonneg.
  - apply Rsum_nonneg, Forall_map, Forall_forall. intros y _. nra.
  - intros H. apply sq_sum_zero_iff. unfold ys. rewrite Forall_map.
    apply (all_columns_zero B D x (conj Hlen HD)) in H.
    eapply Forall_impl; [ | exact H]. intros j Hj.
    simpl in *. now apply (column_mean_zero_iff B x j HB).
Qed.

End FlopsFacts.

Lemma FlopsRegularizer_compute_nonneg_witness :
  exists (ys : list R) (flops : R),
    Dual.FlopsRegularizerCompute.compute 2 [[1; -2]; [3; 0]]%R
    = (map Torch.Num ys, Torch.Num flops)
    /\ List.length ys = 2%nat
    /\ Forall (fun y => (0 <= y)%R) ys
    /\ flops = Dual.sq_sum ys
    /\ (0 <= flops)%R
    /\ (Forall (Forall (fun v => v = 0%R)) [[1; -2]; [3; 0]]%R -> flops = 0%R).
Proof.
  apply (FlopsRegularizer_compute_nonneg 2 2).
  - split; [reflexivity | ].
    constructor; [reflexivity | constructor; [reflexivity | constructor]].
  - lia.
Defined.

(** ** The aggregations of Splade *)

Section SpladeFacts.

Import Torch Splade.
Local Open Scope R_scope.

Lemma log1p_nonneg (y : R) : 0 <= y -> 0 <= log1p y.
Proof.
  intros H. unfold log1p. destruct H as [H | <-].
  - left. rewrite <- ln_1. apply ln_increasing; lra.
  - right. now rewrite Rplus_0_r, ln_1.
Qed.

Lemma weigh_token_nonneg (row : list R) (m : Z) :
  (0 <= m)%Z -> Forall (fun w => 0 <= w) (weigh_token row m).
Proof.
  intros Hm. unfold weigh_token. apply Forall_map, Forall_forall.
  intros x _. apply log1p_nonneg, Rmult_le_pos; [apply relu_nonneg | ].
  now apply IZR_le.
Qed.

(** On two lists of one length, broadcasting pairs the elements. *)
Lemma broadcastM_zip {A B C : Type} (f : A -> B -> outcome C)
  (a : list A) (b : list B) :
  List.length a = List.length b ->
  broadcastM f a b = mapM (fun p => f (fst p) (snd p)) (combine a b).
Proof.
  intros H. unfold broadcastM.
  destruct a as [ | x [ | x' a]]; destruct b as [ | y [ | y' b]];
    try discriminate H; try reflexivity.
  now rewrite H, Nat.eqb_refl.
Qed.

Lemma weigh_tokens_zip (V T : nat) (tokens : list (list R)) (ms : list Z) :
  List.length tokens = T -> List.length ms = T ->
  broadcastM (fun row m => Ret (weigh_token row m)) tokens ms
  = Ret (map2 weigh_token tokens ms).
Proof.
  intros H1 H2. rewrite broadcastM_zip by congruence.
  unfold map2. now apply mapM_Ret.
Qed.

Lemma weigh_shapes (B T V : nat) (logits : logits_t) (mask : mask_t) :
  shape3 B T V logits -> has_shape B T mask ->
  weigh logits mask = Ret (map2 (map2 weigh_token) logits mask).
Proof.
  intros [HB HT] [HB' HT']. unfold weigh.
  rewrite broadcastM_zip by congruence.
  unfold map2 at 1. apply mapM_Ret. intros [tokens ms] Hin. cbn [fst snd].
  rewrite Forall_forall in HT, HT'.
  destruct (HT tokens (in_combine_l _ _ _ _ Hin)) as [H1 _].
  pose proof (HT' ms (in_combine_r _ _ _ _ Hin)) as H2.
  now apply (weigh_tokens_zip V T).
Qed.

Lemma map2_weigh_token_weighted (T V : nat) (tokens : list (list R)) (ms : list Z) :
  has_shape T V tokens -> List.length ms = T ->
  Forall (fun m => (0 <= m)%Z) ms ->
  weighted T V (map2 weigh_token tokens ms).
Proof.
  intros [H1 H2] H3 Hm. split.
  - unfold map2. rewrite length_map, length_combine. lia.
  - unfold map2. apply Forall_map, Forall_forall. intros [row m] Hin.
    cbn [fst snd]. rewrite Forall_forall in H2, Hm. split.
    + unfold weigh_token. rewrite length_map.
      apply H2, (in_combine_l _ _ _ _ Hin).
    + apply weigh_token_nonneg, Hm, (in_combine_r _ _ _ _ Hin).
Qed.

Lemma max_sum_step (a : list R) :
  forall b r : list R,
    Forall2 (fun x y => 0 <= x <= y) a b ->
    List.length r = List.length a ->
    Forall (fun w => 0 <= w) r ->
    Forall2 (fun x y => 0 <= x <= y) (map2 Rmax a r) (map2 Rplus b r).
Proof.
  unfold map2. induction a as [ | x a IH]; intros b r Hab Hr Hnn.
  - inversion Hab; subst. constructor.
  - inversion Hab as [ | ? y ? b' Hxy Hab']; subst.
    destruct r as [ | w r]; [discriminate Hr | ].
    inversion Hnn as [ | ? ? Hw Hnn']; subst.
    cbn [combine map fst snd]. constructor.
    + split; [apply Rle_trans with x; [lra | apply Rmax_l] | ].
      apply Rmax_lub; lra.
    + apply IH; [exact Hab' | simpl in Hr; lia | exact Hnn'].
Qed.

Lemma max_sum_fold (V : nat) (rows : list (list R)) :
  forall a b : list R,
    Forall (fun row => List.length row = V /\ Forall (fun w => 0 <= w) row) rows ->
    List.length a = V ->
    Forall2 (fun x y => 0 <= x <= y) a b ->
    Forall2 (fun x y => 0 <= x <= y)
            (fold_left (map2 Rmax) rows a) (fold_left (map2 Rplus) rows b).
Proof.
  induction rows as [ | r rows IH]; intros a b Hrows Ha Hab; [exact Hab | ].
  inversion Hrows as [ | ? ? [Hr Hnn] Hrows']; subst.
  cbn [fold_left]. apply IH; [exact Hrows' | | ].
  - unfold map2. rewrite length_map, length_combine. lia.
  - apply max_sum_step; [exact Hab | congruence | exact Hnn].
Qed.

Lemma max_sum_init (row : list R) :
  Forall (fun w => 0 <= w) row ->
  Forall2 (fun x y => 0 <= x <= y) row
          (map2 Rplus (repeat 0 (List.length row)) row).
Proof.
  unfold map2. induction 1 as [ | w row Hw _ IH]; [constructor | ].
  cbn [List.length repeat combine map fst snd]. constructor; [lra | exact IH].
Qed.

Lemma fold_map2_length (f : R -> R -> R) (V : nat) (rows : list (list R)) :
  forall a : list R,
    List.length a = V ->
    Forall (fun row => List.length row = V) rows ->
    List.length (fold_left (map2 f) rows a) = V.
Proof.
  induction rows as [ | r rows IH]; intros a Ha Hrows; [exact Ha | ].
  apply Forall_cons_iff in Hrows. destruct Hrows as [Hr Hrows].
  cbn [fold_left]. apply IH; [ | exact Hrows].
  unfold map2. rewrite length_map, length_combine. lia.
Qed.

Lemma max_sum_tokens (T V : nat) (tokens : list (list R)) :
  weighted T V tokens -> (1 <= T)%nat ->
  exists mx : list R,
    max_tokens tokens = Ret mx
    /\ List.length mx = V
    /\ Forall2 (fun x y => 0 <= x <= y) mx (sum_tokens V tokens).
Proof.
  intros [HT Hrows] H1.
  destruct tokens as [ | row rows]; [simpl in HT; lia | ].
  apply Forall_cons_iff in Hrows. destruct Hrows as [[Hr Hnn] Hrows'].
  exists (fold_left (map2 Rmax) rows row).
  split; [reflexivity | ]. split.
  - apply fold_map2_length; [exact Hr | ].
    eapply Forall_impl; [ | exact Hrows']. now intros r [H _].
  - unfold sum_tokens. cbn [fold_left].
    apply (max_sum_fold V); [exact Hrows' | exact Hr | ].
    rewrite <- Hr. now apply max_sum_init.
Qed.

(** X19: On finite logits of shape [(B, T, V)] with at least one token per
    text and a mask without negative entry, both aggregations return a
    [(B, V)] matrix; no weight is negative, and the weights of the max
    aggregation are at most those of the sum aggregation. *)
Theorem aggregations_nonneg_max_le_sum :
  forall (B T V : nat) (logits : logits_t) (mask : mask_t),
    shape3 B T V logits ->
    has_shape B T mask ->
    (1 <= T)%nat ->
    Forall (Forall (fun m => (0 <= m)%Z)) mask ->
    exists mx sm : list (list R),
      MaxAggregation.call logits mask = Ret mx
      /\ SumAggregation.call V logits mask = Ret sm
      /\ has_shape B V mx
      /\ Forall2 (Forall2 (fun x y => 0 <= x <= y)) mx sm.
Proof.
  intros B T V logits mask Hl Hm HT Hnn.
  unfold MaxAggregation.call, SumAggregation.call.
  rewrite (weigh_shapes B T V logits mask Hl Hm). cbn [bind].
  set (w := map2 (map2 weigh_token) logits mask).
  assert (Hw : Forall (weighted T V) w).
  { unfold w, map2 at 1. apply Forall_map, Forall_forall. intros [tokens ms] Hin.
    cbn [fst snd]. destruct Hl as [_ Hl], Hm as [_ Hm].
    rewrite Forall_forall in Hl, Hm, Hnn.
    apply map2_weigh_token_weighted.
    - apply Hl, (in_combine_l _ _ _ _ Hin).
    - apply Hm, (in_combine_r _ _ _ _ Hin).
    - apply Hnn, (in_combine_r _ _ _ _ Hin). }
  assert (Hlen : List.length w = B).
  { unfold w, map2. rewrite length_map, length_combine.
    destruct Hl as [-> _], Hm as [-> _]. apply Nat.min_id. }
  clearbody w. clear - Hw Hlen HT. subst B.
  induction Hw as [ | tokens w Htok _ IH].
  - exists [], []. repeat split; constructor.
  - destruct IH as [mx [sm [H1 [H2 [[H3 H4] H5]]]]].
    destruct (max_sum_tokens T V tokens Htok HT) as [m0 [E0 [L0 F0]]].
    exists (m0 :: mx), (sum_tokens V tokens :: sm).
    cbn [mapM map]. rewrite E0, H1. cbn [bind].
    injection H2 as <-.
    split; [reflexivity | ]. split; [reflexivity | ]. split.
    + split; [simpl; now rewrite H3 | constructor; assumption].
    + constructor; assumption.
Qed.

Lemma Forall3_length {A B C : Type} (P : A -> B -> C -> Prop)
  (la : list A) (lb : list B) (lc : list C) :
  Forall3 P la lb lc ->
  List.length la = List.length lc /\ List.length lb = List.length lc.
Proof.
  induction 1 as [ | a b c la lb lc _ _ [IH1 IH2]]; simpl; split; congruence.
Qed.

Lemma weigh_token_unmasked (row row' : list R) (m : Z) :
  List.length row = List.length row' ->
  (m <> 0%Z -> row = row') ->
  weigh_token row m = weigh_token row' m.
Proof.
  intros Hlen Hm. destruct (Z.eq_dec m 0) as [-> | N]; [ | now rewrite (Hm N)].
  unfold weigh_token.
  rewrite (map_ext _ (fun _ => log1p 0) (fun x => f_equal log1p (Rmult_0_r (relu x)))).
  rewrite (map_ext _ (fun _ => log1p 0) (fun x => f_equal log1p (Rmult_0_r (relu x)))).
  rewrite !map_const. now rewrite Hlen.
Qed.

Lemma weigh_unmasked (logits logits' : logits_t) (mask : mask_t) :
  same_unmasked logits logits' mask ->
  weigh logits mask = weigh logits' mask.
Proof.
  intros H. unfold weigh.
  destruct (Forall3_length _ _ _ _ H) as [L1 L2].
  rewrite !broadcastM_zip by assumption. clear L1 L2.
  induction H as [ | tokens tokens' ms logits logits' mask Htok _ IH];
    [reflexivity | ].
  cbn [combine mapM fst snd]. rewrite IH. f_equal.
  destruct (Forall3_length _ _ _ _ Htok) as [L1 L2].
  rewrite !broadcastM_zip by assumption. clear L1 L2 IH.
  induction Htok as [ | row row' m tokens tokens' ms [Hlen Hm] _ IH];
    [reflexivity | ].
  cbn [combine mapM fst snd]. rewrite IH.
  now rewrite (weigh_token_unmasked row row' m Hlen Hm).
Qed.

(** X20: As long as the logits are finite, those of the tokens that the mask
    cancels (padding) have no influence on either aggregation. *)
Theorem aggregations_ignore_masked_tokens :
  forall (logits logits' : logits_t) (mask : mask_t),
    same_unmasked logits logits' mask ->
    MaxAggregation.call logits mask = MaxAggregation.call logits' mask
    /\ (forall V, SumAggregation.call V logits mask
                  = SumAggregation.call V logits' mask).
Proof.
  intros logits logits' mask H.
  unfold MaxAggregation.call, SumAggregation.call.
  now rewrite (weigh_unmasked logits logits' mask H).
Qed.

End SpladeFacts.

(** One text of two tokens over three terms; the second token is padding. *)
Lemma aggregations_nonneg_max_le_sum_witness :
  exists mx sm : list (list R),
    Splade.MaxAggregation.call [[[1; -2; 0]; [4; 5; 6]]]%R [[1; 0]]%Z = Ret mx
    /\ Splade.SumAggregation.call 3 [[[1; -2; 0]; [4; 5; 6]]]%R [[1; 0]]%Z = Ret sm
    /\ Torch.has_shape 1 3 mx
    /\ Forall2 (Forall2 (fun x y => (0 <= x <= y)%R)) mx sm.
Proof.
  apply (aggregations_nonneg_max_le_sum 1 2 3).
  - split; [reflexivity | ]. constructor; [ | constructor].
    split; [reflexivity | ].
    constructor; [reflexivity | constructor; [reflexivity | constructor]].
  - split; [reflexivity | ]. constructor; [reflexivity | constructor].
  - lia.
  - constructor; [ | constructor].
    constructor; [lia | constructor; [lia | constructor]].
Defined.

Lemma aggregations_ignore_masked_tokens_witness :
  Splade.MaxAggregation.call [[[1; -2; 0]; [4; 5; 6]]]%R [[1; 0]]%Z
  = Splade.MaxAggregation.call [[[1; -2; 0]; [7; 8; 9]]]%R [[1; 0]]%Z.
Proof.
  refine (proj1 (aggregations_ignore_masked_tokens
                   [[[1; -2; 0]; [4; 5; 6]]]%R [[[1; -2; 0]; [7; 8; 9]]]%R
                   [[1; 0]]%Z _)).
  constructor; [ | constructor].
  constructor; [split; [reflexivity | reflexivity] | ].
  constructor; [split; [reflexivity | intros H; now contradiction H] | ].
  constructor.
Defined.

(** ** The Splade models *)

(** X21: [spladeV1] hands its warm-up step count to [_splade] in the position of
    [min_lambda_q]: in the regularizer it returns, [min_lambda_q] is the
    given number of warm-up steps and [lamdba_warmup_steps] is 0, whatever
    the arguments; [spladeV2] keeps each argument in its own field.  Both
    share one vocabulary between the document encoder (200 tokens at most)
    and the query encoder (30 tokens at most). *)
Theorem spladeV1_warmup_bound_to_min_lambda_q :
  forall lq ld mq md w : Splade.number,
    let r1 := snd (Splade.spladeV1 lq ld w) in
    let r2 := snd (Splade.spladeV2 lq ld mq md w) in
    (Splade.min_lambda_q r1 = w
     /\ Splade.lamdba_warmup_steps r1 = Splade.Int 0
     /\ Splade.min_lambda_d r1 = Splade.Int 0
     /\ Splade.lambda_q r1 = lq /\ Splade.lambda_d r1 = ld)
    /\ (Splade.min_lambda_q r2 = mq
        /\ Splade.min_lambda_d r2 = md
        /\ Splade.lamdba_warmup_steps r2 = w
        /\ Splade.lambda_q r2 = lq /\ Splade.lambda_d r2 = ld)
    /\ (forall scorer,
          scorer = fst (Splade.spladeV1 lq ld w)
          \/ scorer = fst (Splade.spladeV2 lq ld mq md w) ->
          exists q,
            Splade.query_encoder scorer = Some q
            /\ Splade.encoder q = Splade.encoder (Splade.doc_encoder scorer)
            /\ Splade.maxlen (Splade.doc_encoder scorer) = Some 200%Z
            /\ Splade.maxlen q = Some 30%Z).
Proof.
  intros lq ld mq md w r1 r2. split; [ | split].
  - repeat split.
  - repeat split.
  - intros scorer [-> | ->]; eexists; repeat split.
Qed.

(** X22: The scorers that [spladeV1] and [spladeV2] build pass the validation of
    [DotDense] whenever the inherited validation does: a
    [SpladeTextEncoder] is never static. *)
Theorem splade_scorers_validate :
  forall (super_validate : Dual.Dense_params -> outcome unit)
         (lq ld mq md w : Splade.number) (scorer : Splade.DotDense),
    scorer = fst (Splade.spladeV1 lq ld w)
    \/ scorer = fst (Splade.spladeV2 lq ld mq md w) ->
    super_validate (Splade.as_Dense_params scorer) = Ret tt ->
    Dual.DotDense__validate__ super_validate (Splade.as_Dense_params scorer)
    = Ret tt.
Proof.
  intros super_validate lq ld mq md w scorer Hs Hsuper.
  unfold Dual.DotDense__validate__.
  rewrite (Dense_validate_learnable super_validate _ Hsuper).
  - destruct Hs as [-> | ->]; reflexivity.
  - destruct Hs as [-> | ->]; reflexivity.
Qed.

Lemma splade_scorers_validate_witness :
  Dual.DotDense__validate__ (fun _ => Ret tt)
    (Splade.as_Dense_params
       (fst (Splade.spladeV2 (Splade.Float (1 # 10)) (Splade.Float (1 # 10))
               (Splade.Int 0) (Splade.Int 0) (Splade.Int 1000))))
  = Ret tt.
Proof.
  apply (splade_scorers_validate (fun _ => Ret tt)
           (Splade.Float (1 # 10)) (Splade.Float (1 # 10))
           (Splade.Int 0) (Splade.Int 0) (Splade.Int 1000)).
  - right. reflexivity.
  - reflexivity.
Defined.

(** ** The files of measures *)

Section MeasureFacts.

Import Evaluation.
Local Open Scope string_scope.

Lemma length_append (a b : string) :
  String.length (a ++ b) = (String.length a + String.length b)%nat.
Proof. induction a as [ | c a IH]; simpl; [reflexivity | now rewrite IH]. Qed.

Lemma length_spaces (n : nat) : String.length (spaces n) = n.
Proof. induction n as [ | n IH]; simpl; [reflexivity | now rewrite IH]. Qed.

Lemma length_ljust (width : nat) (s : string) :
  String.length (ljust width s) = Nat.max width (String.length s).
Proof. unfold ljust. rewrite length_append, length_spaces. lia. Qed.

Lemma substring_prefix (a b : string) :
  substring 0 (String.length a) (a ++ b) = a.
Proof.
  induction a as [ | c a IH]; simpl; [now destruct b | now rewrite IH].
Qed.

Lemma substring_skip (a b : string) (n m : nat) :
  substring (String.length a + n) m (a ++ b) = substring n m b.
Proof. induction a as [ | c a IH]; simpl; [reflexivity | exact IH]. Qed.

Lemma substring_from (a b : string) (n m : nat) :
  String.length a = n -> substring n m (a ++ b) = substring 0 m b.
Proof.
  intros <-. rewrite <- (Nat.add_0_r (String.length a)). apply substring_skip.
Qed.

Variable Value : Type.
Variable format_4f : Value -> string.

(** X23: The columns of a line: a measure name of at most 25 characters and a
    scope of at most 8 are read back at the columns 0 and 25, and the value
    at the column 33; the line is 33 characters, the value and a newline. *)
Theorem measure_line_columns :
  forall (measure scope : string) (value : Value),
    (String.length measure <= 25)%nat ->
    (String.length scope <= 8)%nat ->
    let line := measure_line format_4f measure scope value in
    substring 0 (String.length measure) line = measure
    /\ substring 25 (String.length scope) line = scope
    /\ substring 33 (String.length (format_4f value)) line = format_4f value
    /\ String.length line = (33 + String.length (format_4f value) + 1)%nat.
Proof.
  intros measure scope value Hm Hs line. unfold line, measure_line.
  assert (L1 : String.length (ljust 25 measure) = 25%nat)
    by (rewrite length_ljust; lia).
  assert (L2 : String.length (ljust 8 scope) = 8%nat)
    by (rewrite length_ljust; lia).
  split; [ | split; [ | split]].
  - unfold ljust at 1. rewrite string_app_assoc. apply substring_prefix.
  - rewrite (substring_from (ljust 25 measure) _ 25 _ L1).
    unfold ljust at 1. rewrite string_app_assoc. apply substring_prefix.
  - rewrite <- string_app_assoc.
    rewrite (substring_from (ljust 25 measure ++ ljust 8 scope) _ 33).
    + apply substring_prefix.
    + rewrite length_append, L1, L2. reflexivity.
  - rewrite !length_append, L1, L2. simpl. lia.
Qed.

(** Writing a line per item appends the lines in the order of the items. *)
Lemma fold_left_write {A : Type} (g : A -> string) (l : list A) :
  forall fp : string,
    fold_left (fun fp a => write fp (g a)) l fp
    = fp ++ String.concat "" (map g l).
Proof.
  induction l as [ | a l IH]; intros fp.
  - simpl. now rewrite string_app_nil_r.
  - cbn [fold_left map]. rewrite IH, concat_empty_cons. unfold write.
    now rewrite string_app_assoc.
Qed.

Lemma insert_item_perm {V : Type} (kv : string * V) (l : list (string * V)) :
  Permutation (insert_item kv l) (kv :: l).
Proof.
  induction l as [ | kv' l IH]; simpl; [reflexivity | ].
  destruct (String.leb (fst kv) (fst kv')); [reflexivity | ].
  rewrite IH. apply perm_swap.
Qed.

Lemma sorted_perm {V : Type} (items : list (string * V)) :
  Permutation (sorted items) items.
Proof.
  induction items as [ | kv items IH]; [reflexivity | ].
  cbn [sorted fold_right]. fold (sorted items).
  rewrite insert_item_perm. now constructor.
Qed.

Lemma insert_item_sorted {V : Type} (kv : string * V) (l : list (string * V)) :
  Sorted key_le l -> Sorted key_le (insert_item kv l).
Proof.
  induction 1 as [ | kv' l Hs IH Hd]; simpl.
  - repeat constructor.
  - destruct (String.leb (fst kv) (fst kv')) eqn:E.
    + constructor; [now constructor | now constructor].
    + constructor; [exact IH | ].
      assert (Hle : key_le kv' kv).
      { unfold key_le. destruct (String.leb_total (fst kv) (fst kv')) as [H | H];
          [congruence | exact H]. }
      destruct l as [ | kv'' l]; simpl.
      * now constructor.
      * inversion Hd as [ | ? ? Hd']; subst.
        destruct (String.leb (fst kv) (fst kv'')); now constructor.
Qed.

Lemma sorted_sorted {V : Type} (items : list (string * V)) :
  Sorted key_le (sorted items).
Proof.
  induction items as [ | kv items IH]; [constructor | ].
  cbn [sorted fold_right]. now apply insert_item_sorted.
Qed.

(** X24: The file of the mean measures holds one line per measure, with the
    scope [all], in the ascending order of the names of the measures. *)
Theorem write_means_sorted_lines :
  forall (fp : string) (means : dict Value),
    exists items : list (string * Value),
      write_means format_4f fp means
      = fp ++ String.concat ""
                (map (fun kv => measure_line format_4f (fst kv) "all" (snd kv)) items)
      /\ Permutation items means
      /\ Sorted key_le items.
Proof.
  intros fp means. exists (sorted means). split; [ | split].
  - unfold write_means, print_line.
    apply (fold_left_write
             (fun kv => measure_line format_4f (fst kv) "all" (snd kv))).
  - apply sorted_perm.
  - apply sorted_sorted.
Qed.

Lemma flat_map_perm_pointwise {A B : Type} (f g : A -> list B) (l : list A) :
  (forall a, In a l -> Permutation (f a) (g a)) ->
  Permutation (flat_map f l) (flat_map g l).
Proof.
  induction l as [ | a l IH]; intros H; [reflexivity | ].
  cbn [flat_map]. apply Permutation_app.
  - apply H. now left.
  - apply IH. intros b Hb. apply H. now right.
Qed.

Lemma flat_map_after_map {A B C : Type} (f : B -> list C) (h : A -> B)
  (l : list A) :
  flat_map f (map h l) = flat_map (fun a => f (h a)) l.
Proof.
  induction l as [ | a l IH]; simpl; [reflexivity | now rewrite IH].
Qed.

Lemma fold_left_nested {A B : Type} (inner : A -> list B) (g : A -> B -> string)
  (l : list A) :
  forall fp : string,
    fold_left (fun fp a => fold_left (fun fp b => write fp (g a b)) (inner a) fp)
              l fp
    = fp ++ String.concat "" (flat_map (fun a => map (g a) (inner a)) l).
Proof.
  induction l as [ | a l IH]; intros fp.
  - simpl. now rewrite string_app_nil_r.
  - cbn [fold_left flat_map]. rewrite IH, fold_left_write, concat_empty_app.
    now rewrite string_app_assoc.
Qed.

(** X25: [TrecEval.execute] and [Evaluate.execute] write the same lines to
    their detailed files, one per measure and query, but not in the same
    order: the former keeps the order of the measures and sorts the queries,
    the latter sorts the measures and keeps the order of the queries. *)
Theorem detailed_files_same_lines :
  forall (fp : string) (detailed : dict (dict Value)),
    let lines := detailed_lines format_4f detailed in
    exists trec_lines evaluate_lines : list string,
      TrecEval_write_detailed format_4f fp detailed
      = fp ++ String.concat "" trec_lines
      /\ Evaluate_write_detailed format_4f fp detailed
         = fp ++ String.concat "" evaluate_lines
      /\ trec_lines
         = detailed_lines format_4f
             (map (fun mv => (fst mv, sorted (snd mv))) detailed)
      /\ evaluate_lines = detailed_lines format_4f (sorted detailed)
      /\ Permutation trec_lines lines
      /\ Permutation evaluate_lines lines.
Proof.
  intros fp detailed lines.
  exists (detailed_lines format_4f
            (map (fun mv => (fst mv, sorted (snd mv))) detailed)),
         (detailed_lines format_4f (sorted detailed)).
  split; [ | split; [ | split; [reflexivity | split; [reflexivity | split]]]].
  - unfold TrecEval_write_detailed, print_line, detailed_lines.
    rewrite (fold_left_nested (fun mv => sorted (snd mv))
               (fun mv qv => measure_line format_4f (fst mv) (fst qv) (snd qv))).
    now rewrite flat_map_after_map.
  - unfold Evaluate_write_detailed, print_line, detailed_lines.
    apply (fold_left_nested (fun mv => snd mv)
             (fun mv qv => measure_line format_4f (fst mv) (fst qv) (snd qv))).
  - unfold lines, detailed_lines. rewrite flat_map_after_map.
    apply flat_map_perm_pointwise. intros mv _. cbn [fst snd].
    apply Permutation_map, sorted_perm.
  - unfold lines, detailed_lines. apply Permutation_flat_map, sorted_perm.
Qed.

End MeasureFacts.

Lemma measure_line_columns_witness :
  let line := Evaluation.measure_line (fun s : string => s)
                "ndcg@20"%string "q17"%string "0.4312"%string in
  substring 0 7 line = "ndcg@20"%string
  /\ substring 25 3 line = "q17"%string
  /\ substring 33 6 line = "0.4312"%string
  /\ String.length line = 40%nat.
Proof.
  apply (measure_line_columns string (fun s => s)
           "ndcg@20"%string "q17"%string "0.4312"%string);
    simpl; lia.
Defined.

(** ** The cache of indexes of the MS-Marco example *)

Section InformationFacts.

Import Msmarco.

Variables (Dataset Index : Type).
Variable ds_id : Dataset -> string.
Variable submit_index : Dataset -> nat -> Index.

Local Abbreviation index := (Msmarco.index ds_id submit_index).
Local Abbreviation index_all := (Msmarco.index_all ds_id submit_index).
Local Abbreviation Information := (Msmarco.Information Dataset Index).

Lemma dict_get_set_same (d : list (string * Index)) (key : string) (v : Index) :
  dict_get (dict_set d key v) key = Some v.
Proof.
  induction d as [ | [k w] d IH]; simpl.
  - now rewrite String.eqb_refl.
  - destruct (String.eqb k key) eqn:E; simpl; rewrite E; [reflexivity | exact IH].
Qed.

Lemma dict_get_None (d : list (string * Index)) (key : string) :
  dict_get d key = None <-> ~ In key (map fst d).
Proof.
  induction d as [ | [k w] d IH]; simpl.
  - split; [intros _ [] | reflexivity].
  - destruct (String.eqb_spec k key) as [-> | N].
    + split; [discriminate | intros H; exfalso; apply H; now left].
    + rewrite IH. split; [intros H [E | Hin]; [congruence | contradiction] | ].
      intros H Hin. apply H. now right.
Qed.

Lemma dict_set_new_keys (d : list (string * Index)) (key : string) (v : Index) :
  ~ In key (map fst d) ->
  map fst (dict_set d key v) = map fst d ++ [key].
Proof.
  induction d as [ | [k w] d IH]; simpl; intros H; [reflexivity | ].
  destruct (String.eqb_spec k key) as [-> | N].
  - exfalso. apply H. now left.
  - simpl. rewrite IH; [reflexivity | ]. intros Hin. apply H. now right.
Qed.

(** X26: Once [index] has been called for a dataset, a call for a dataset with
    the same [id] returns the index of the first call, submits no job and
    leaves the object as it is. *)
Theorem Information_index_memoized :
  forall (cpu cpu' : nat) (self : Information) (ds ds' : Dataset),
    ds_id ds' = ds_id ds ->
    let first := index cpu self ds in
    index cpu' (snd first) ds' = (fst first, snd first).
Proof.
  intros cpu cpu' self ds ds' Hid first. unfold first, Msmarco.index.
  destruct (dict_get (_indexes self) (ds_id ds)) as [i | ] eqn:E; cbn [fst snd].
  - now rewrite Hid, E.
  - cbn [_indexes]. now rewrite Hid, dict_get_set_same.
Qed.

Lemma index_consistent (cpu : nat) (self : Information) (ds : Dataset) :
  consistent ds_id self ->
  consistent ds_id (snd (index cpu self ds))
  /\ In (ds_id ds) (map fst (_indexes (snd (index cpu self ds))))
  /\ (forall k, In k (map fst (_indexes self)) ->
                In k (map fst (_indexes (snd (index cpu self ds))))).
Proof.
  intros [H1 H2]. unfold Msmarco.index.
  destruct (dict_get (_indexes self) (ds_id ds)) as [i | ] eqn:E; cbn [snd].
  - split; [now split | ]. split; [ | auto].
    destruct (in_dec string_dec (ds_id ds) (map fst (_indexes self)))
      as [Hin | Hnin]; [exact Hin | ].
    apply dict_get_None in Hnin. congruence.
  - apply dict_get_None in E. unfold consistent. cbn [_indexes submitted].
    rewrite (dict_set_new_keys _ _ _ E). split; [split | split].
    + now rewrite map_app, H1.
    + apply NoDup_app; [exact H2 | repeat constructor; intros [] | ].
      intros k Hk [<- | []]. contradiction.
    + apply in_or_app. right. now left.
    + intros k Hk. apply in_or_app. now left.
Qed.

(** X27: Whatever the sequence of calls on a new [Information], no dataset id
    is submitted for indexing twice, and every dataset asked for has had
    its id submitted. *)
Theorem Information_index_submits_once :
  forall (cpu : nat) (dss : list Dataset),
    let self := snd (index_all cpu (init Dataset Index) dss) in
    NoDup (map ds_id (submitted self))
    /\ (forall ds, In ds dss -> In (ds_id ds) (map ds_id (submitted self)))
    /\ List.length (fst (index_all cpu (init Dataset Index) dss)) = List.length dss.
Proof.
  intros cpu dss.
  assert (H : forall self0 : Information,
             consistent ds_id self0 ->
             let self := snd (index_all cpu self0 dss) in
             consistent ds_id self
             /\ (forall k, In k (map fst (_indexes self0)) ->
                           In k (map fst (_indexes self)))
             /\ (forall ds, In ds dss -> In (ds_id ds) (map fst (_indexes self)))
             /\ List.length (fst (index_all cpu self0 dss)) = List.length dss).
  { induction dss as [ | ds dss IH]; intros self0 H0.
    - simpl. repeat split; try apply H0; auto. intros ds [].
    - cbn [Msmarco.index_all].
      destruct (index_consistent cpu self0 ds H0) as [Hc [Hin Hkeep]].
      destruct (index cpu self0 ds) as [i self1] eqn:E1. cbn [snd] in Hc, Hin, Hkeep.
      specialize (IH self1 Hc). cbv zeta in IH.
      destruct (index_all cpu self1 dss) as [rest self2] eqn:E2.
      cbn [fst snd] in *. destruct IH as [IH1 [IH2 [IH3 IH4]]].
      split; [exact IH1 | ]. split; [auto | ]. split.
      + intros ds' [<- | Hd]; [auto | auto].
      + simpl. now rewrite IH4. }
  intros self. specialize (H (init Dataset Index)).
  destruct H as [[H1 H2] [_ [H3 H4]]].
  { split; [reflexivity | constructor]. }
  fold self in H1, H2, H3. split; [ | split].
  - now rewrite H1.
  - intros ds Hd. rewrite H1. now apply H3.
  - exact H4.
Qed.

End InformationFacts.

Lemma Information_index_memoized_witness :
  let ds_id := fun ds : string * nat => fst ds in
  let submit := fun (ds : string * nat) (cpu : nat) => (snd ds + cpu)%nat in
  let first := Msmarco.index ds_id submit 4 (Msmarco.init (string * nat) nat)
                 ("msmarco"%string, 10%nat) in
  Msmarco.index ds_id submit 8 (snd first) ("msmarco"%string, 99%nat)
  = (fst first, snd first).
Proof.
  intros ds_id submit first.
  apply (Information_index_memoized (string * nat) nat ds_id submit 4 8).
  reflexivity.
Defined.

(** ** [HFTokenizer.id2tok] *)

Section Id2tokFacts.

Import Tokenizers.

(** Induction on a tensor, with the property for all the slices. *)
Lemma tensor_induction (P : tensor -> Prop) :
  (forall id, P (Scalar id)) ->
  (forall slices, Forall P slices -> P (Stack slices)) ->
  forall t, P t.
Proof.
  intros Hs Hl. fix IH 1. intros [id | slices].
  - apply Hs.
  - apply Hl. induction slices as [ | t slices IHs]; constructor.
    + apply IH.
    + exact IHs.
Qed.

Variable id_to_token : Z -> option string.

(** X28: [id2tok] translates every id of a tensor, in order, and returns lists
    nested as the tensor is; a number gives one token. *)
Theorem id2tok_translates_every_id :
  forall i : idx,
    match i with
    | PyInt id => id2tok id_to_token i = Tok (id_to_token id)
    | Tensor t =>
        tokens (id2tok id_to_token i) = map id_to_token (ids t)
        /\ value_nesting (id2tok id_to_token i) = tensor_nesting t
    end.
Proof.
  intros [id | t]; [reflexivity | ]. cbn [id2tok].
  induction t as [id | slices IH] using tensor_induction.
  - split; reflexivity.
  - cbn [id2tok_tensor tokens ids value_nesting tensor_nesting]. split.
    + induction IH as [ | t slices [H1 _] _ IHs]; [reflexivity | ].
      cbn [map flat_map]. now rewrite map_app, H1, IHs.
    + f_equal. induction IH as [ | t slices [_ H2] _ IHs]; [reflexivity | ].
      cbn [map]. now rewrite H2, IHs.
Qed.

End Id2tokFacts.

(** A tensor of two rows. *)
Example id2tok_two_rows :
  let vocab := fun id : Z =>
    if (id =? 101)%Z then Some "[CLS]"%string
    else if (id =? 102)%Z then Some "[SEP]"%string else None in
  Tokenizers.id2tok vocab
    (Tokenizers.Tensor
       (Tokenizers.Stack
          [Tokenizers.Stack [Tokenizers.Scalar 101; Tokenizers.Scalar 7];
           Tokenizers.Stack [Tokenizers.Scalar 102; Tokenizers.Scalar 101]]))
  = Tokenizers.PyList
      [Tokenizers.PyList [Tokenizers.Tok (Some "[CLS]"%string); Tokenizers.Tok None];
       Tokenizers.PyList [Tokenizers.Tok (Some "[SEP]"%string);
                          Tokenizers.Tok (Some "[CLS]"%string)]].
Proof. reflexivity. Qed.
